(** * my_projects: a shallow embedding of the demo applications

    The repository is a bundle of independent Python scripts.  This file
    embeds the parts of four of them that carry logic of their own:

    - [Bank]        src/sber_test/main.py (annuity payment, payment schedule,
                    payment settlement over the SQLite tables);
    - [Geo]         src/geolocation_app_complex_version/main_new.py (the
                    [--filter] flag and the query it produces);
    - [PartnerApp]  src/partner_app/partner_app.py (change-history log);
    - [Calculator]  src/enhanced_calculator.py (bounded history list).

    Python [float] is IEEE 754 binary64; it is modelled by Rocq's primitive
    floats, which are the same format with the same correctly rounded
    [+ - * /].  Python exceptions are modelled by the [result] type. *)

From Stdlib Require Import ZArith QArith List String Ascii Bool Lia Sorted.
From Stdlib Require Import Floats.
Import ListNotations.

Set Warnings "-inexact-float".
Local Open Scope Z_scope.

(* ================================================================== *)
(** * Python values used by the scripts *)
(* ================================================================== *)

Module Py.

(** The exceptions the modelled code can raise. *)
Inductive PyError : Type :=
| ZeroDivisionError
| OverflowError
| ValueError
| DatabaseError.

(** A computation that returns a value or raises. *)
Inductive result (A : Type) : Type :=
| Ok (a : A)
| Raise (e : PyError).
Arguments Ok {A} a.
Arguments Raise {A} e.

Definition bind {A B : Type} (m : result A) (k : A -> result B) : result B :=
  match m with
  | Ok a => k a
  | Raise e => Raise e
  end.

Notation "x <- m ;; k" := (bind m (fun x => k))
  (at level 61, m at next level, right associativity).

(** [float(n)] for a Python [int]: the nearest double, ties to even;
    [OverflowError] when the integer is too large for a double. *)
Definition float_of_int (n : Z) : result float :=
  let f := SF2Prim (binary_normalize prec emax n 0 false) in
  if is_infinity f then Raise OverflowError else Ok f.

(** [x / y] on floats: [ZeroDivisionError] on a zero divisor (of either
    sign), the IEEE quotient otherwise. *)
Definition py_truediv (x y : float) : result float :=
  if (y =? 0)%float then Raise ZeroDivisionError else Ok (x / y)%float.

(** The value libm's [pow] approximates for an integral exponent, computed
    by square-and-multiply.  libm rounds the exact power once, this product
    rounds at every step, so the two can differ in the last bits of the
    result; they agree on the special values used below (a base of exactly
    [1], zero, infinities, overflow to infinity). *)
Definition libm_pow (x : float) (n : Z) : float :=
  match n with
  | Z0 => 1%float
  | Zpos p => Pos.iter_op PrimFloat.mul p x
  | Zneg p => (1 / Pos.iter_op PrimFloat.mul p x)%float
  end.

(** [x ** n] for a float [x] and an int [n], following CPython's
    [float_pow]: the exponent-zero, NaN, infinity, zero-base and base-one
    cases are decided before libm is called, and a finite base whose power
    is infinite raises [OverflowError].  CPython first converts [n] to a
    double; that conversion raises [OverflowError] for an exponent of
    magnitude [2^1024] or more, a case this function does not single
    out: it describes exponents that a double can hold. *)
Definition py_pow (x : float) (n : Z) : result float :=
  if n =? 0 then Ok 1%float
  else if is_nan x then Ok x
  else if is_infinity x then Ok (libm_pow x n)
  else if (x =? 0)%float then
    if n <? 0 then Raise ZeroDivisionError else Ok (libm_pow x n)
  else if (x =? 1)%float then Ok 1%float
  else
    let r := libm_pow x n in
    if is_infinity r then Raise OverflowError else Ok r.

(** The integer nearest to [n * 2^e], ties to the even one ([0 <= n]). *)
Definition round_half_even_shift (n e : Z) : Z :=
  if 0 <=? e then n * 2 ^ e
  else
    let d := 2 ^ (- e) in
    let q := n / d in
    match 2 * (n mod d) ?= d with
    | Lt => q
    | Gt => q + 1
    | Eq => if Z.even q then q else q + 1
    end.

(** [round(x, 2)] on a float.  CPython rounds the exact binary value of [x]
    to two decimals (half to even) and returns the double nearest to that
    decimal; infinities and NaN are returned as they are. *)
Definition py_round2 (x : float) : float :=
  match Prim2SF x with
  | S754_finite s m e =>
      match round_half_even_shift (Z.pos m * 100) e with
      | Z.pos c =>
          SF2Prim (SFdiv prec emax (S754_finite s c 0) (S754_finite false 100 0))
      | _ => SF2Prim (S754_zero s)
      end
  | _ => x
  end.

(** The doubles within [k] units in the last place of [x], [x] included. *)
Fixpoint neighbours (k : nat) (x : float) : list float :=
  match k with
  | O => [x]
  | S k' =>
      Nat.iter k next_down x :: neighbours k' x ++ [Nat.iter k next_up x]
  end.

(** [range(lo, hi)]. *)
Definition range (lo hi : Z) : list Z :=
  map (fun k => lo + Z.of_nat k) (seq 0 (Z.to_nat (hi - lo))).

End Py.

(* ================================================================== *)
(** * The bank demo: src/sber_test/main.py *)
(* ================================================================== *)

Module Bank.
Import Py.

(** ** The datetime library

    A [datetime] at midnight is modelled by the proleptic Gregorian ordinal
    of its day, as [date.toordinal] numbers them: day 1 is 0001-01-01 and
    day [MAXORDINAL] is 9999-12-31.  Parsing and printing belong to the
    library: they are an interface here, with the ISO instance
    [iso_datetime] below. *)

Definition MINORDINAL : Z := 1.
Definition MAXORDINAL : Z := 3652059.
Definition TIMEDELTA_MAX_DAYS : Z := 999999999.

Class DateTimeLib : Type := {
  (** [datetime.strptime(s, "%Y-%m-%d")]; [None] stands for [ValueError]. *)
  strptime : string -> option Z;
  (** [d.strftime("%Y-%m-%d")]. *)
  strftime : Z -> string
}.

(** [timedelta(days=n)]. *)
Definition timedelta (days : Z) : result Z :=
  if (Z.abs days <=? TIMEDELTA_MAX_DAYS) then Ok days else Raise OverflowError.

(** [d + td]: the result must be a date of the years 1..9999. *)
Definition datetime_add (d td : Z) : result Z :=
  let r := d + td in
  if (MINORDINAL <=? r) && (r <=? MAXORDINAL) then Ok r else Raise OverflowError.

(** *** The calendar, after CPython's Lib/_pydatetime.py *)

Definition is_leap (year : Z) : bool :=
  (year mod 4 =? 0) && (negb (year mod 100 =? 0) || (year mod 400 =? 0)).

Definition days_before_year (year : Z) : Z :=
  let y := year - 1 in y * 365 + y / 4 - y / 100 + y / 400.

Definition DAYS_IN_MONTH : list Z :=
  [-1; 31; 28; 31; 30; 31; 30; 31; 31; 30; 31; 30; 31].

Definition DAYS_BEFORE_MONTH : list Z :=
  [-1; 0; 31; 59; 90; 120; 151; 181; 212; 243; 273; 304; 334].

Definition days_in_month (year month : Z) : Z :=
  if (month =? 2) && is_leap year then 29
  else nth (Z.to_nat month) DAYS_IN_MONTH 0.

Definition days_before_month (year month : Z) : Z :=
  nth (Z.to_nat month) DAYS_BEFORE_MONTH 0
  + (if (2 <? month) && is_leap year then 1 else 0).

Definition ymd2ord (year month day : Z) : Z :=
  days_before_year year + days_before_month year month + day.

Definition DI400Y : Z := 146097.
Definition DI100Y : Z := 36524.
Definition DI4Y : Z := 1461.

Definition ord2ymd (ordinal : Z) : Z * Z * Z :=
  let n := ordinal - 1 in
  let n400 := n / DI400Y in
  let n := n mod DI400Y in
  let year := n400 * 400 + 1 in
  let n100 := n / DI100Y in
  let n := n mod DI100Y in
  let n4 := n / DI4Y in
  let n := n mod DI4Y in
  let n1 := n / 365 in
  let n := n mod 365 in
  let year := year + n100 * 100 + n4 * 4 + n1 in
  if (n1 =? 4) || (n100 =? 4) then (year - 1, 12, 31)
  else
    let leapyear := (n1 =? 3) && (negb (n4 =? 24) || (n100 =? 3)) in
    let month := Z.shiftr (n + 50) 5 in
    let preceding :=
      nth (Z.to_nat month) DAYS_BEFORE_MONTH 0
      + (if (2 <? month) && leapyear then 1 else 0) in
    if n <? preceding then
      let month := month - 1 in
      let preceding :=
        preceding
        - (nth (Z.to_nat month) DAYS_IN_MONTH 0
           + (if (month =? 2) && leapyear then 1 else 0)) in
      (year, month, n - preceding + 1)
    else (year, month, n - preceding + 1).

(** Decimal digits. *)
Definition digit_char (d : Z) : ascii := ascii_of_nat (48 + Z.to_nat d).

Definition digit_value (c : ascii) : option Z :=
  let n := Z.of_nat (nat_of_ascii c) in
  if (48 <=? n) && (n <=? 57) then Some (n - 48) else None.

Definition two_digits (n : Z) : string :=
  String (digit_char (n / 10 mod 10)) (String (digit_char (n mod 10)) EmptyString).

Definition four_digits (n : Z) : string :=
  (two_digits (n / 100) ++ two_digits n)%string.

Fixpoint number_of_digits (acc : Z) (s : string) : option Z :=
  match s with
  | EmptyString => Some acc
  | String c rest =>
      match digit_value c with
      | Some d => number_of_digits (acc * 10 + d) rest
      | None => None
      end
  end.

(** [%Y-%m-%d] in its canonical, zero-padded spelling.  For the years
    below 1000 the C library decides whether [%Y] pads; the spelling here
    is the padded one. *)
Definition iso_strftime (d : Z) : string :=
  let '(y, m, dd) := ord2ymd d in
  (four_digits y ++ "-" ++ two_digits m ++ "-" ++ two_digits dd)%string.

(** Parses the canonical spelling [YYYY-MM-DD] (the one [strftime] writes
    and the only one the script stores); anything else is [None].  The
    library also accepts a month or a day of one digit, which this
    instance leaves out. *)
Definition iso_strptime (s : string) : option Z :=
  if negb (Nat.eqb (String.length s) 10) then None
  else if negb (String.eqb (substring 4 1 s) "-" && String.eqb (substring 7 1 s) "-")
  then None
  else
    match number_of_digits 0 (substring 0 4 s),
          number_of_digits 0 (substring 5 2 s),
          number_of_digits 0 (substring 8 2 s) with
    | Some y, Some m, Some d =>
        if (1 <=? y) && (1 <=? m) && (m <=? 12) && (1 <=? d)
           && (d <=? days_in_month y m)
        then Some (ymd2ord y m d) else None
    | _, _, _ => None
    end.

Definition iso_datetime : DateTimeLib :=
  {| strptime := iso_strptime; strftime := iso_strftime |}.

(** ** The tables ([create_tables]) *)

(** A row of [loans]. *)
Record Loan : Type := mkLoan {
  l_id : Z;
  l_client_id : Z;
  l_amount : float;
  l_interest_rate : float;
  l_term_months : Z;
  l_start_date : string;
  l_status : string
}.

(** A row of [payments]; [p_paid] is SQLite's 0/1 and [p_payment_date] is
    [None] for NULL. *)
Record Payment : Type := mkPayment {
  p_id : Z;
  p_loan_id : Z;
  p_payment_number : Z;
  p_due_date : string;
  p_amount : float;
  p_paid : Z;
  p_payment_date : option string
}.

(** The database as the module-level connection sees it.  The two
    counters are the AUTOINCREMENT sequences of the tables.  The [clients]
    table is left out: none of the functions below reads or writes it. *)
Record DB : Type := mkDB {
  loans : list Loan;
  loans_seq : Z;
  payments : list Payment;
  payments_seq : Z
}.

Definition STATUS_OPEN : string := "Открыт".
Definition STATUS_REPAID : string := "Погашен".

Definition empty_db : DB :=
  {| loans := []; loans_seq := 0; payments := []; payments_seq := 0 |}.

(** ** [calculate_annuity_payment] *)

Definition calculate_annuity_payment
    (amount annual_rate_percent : float) (term_months : Z) : result float :=
  let monthly_rate := (annual_rate_percent / 100 / 12)%float in
  if (monthly_rate =? 0)%float then
    n <- float_of_int term_months ;;
    q <- py_truediv amount n ;;
    Ok (py_round2 q)
  else
    p1 <- py_pow (1 + monthly_rate)%float term_months ;;
    p2 <- py_pow (1 + monthly_rate)%float term_months ;;
    payment <- py_truediv (amount * (monthly_rate * p1))%float (p2 - 1)%float ;;
    Ok (py_round2 payment).

(** Line 61 and 62 once the power is known to be [p]. *)
Definition annuity_from_power (amount monthly_rate p : float) : result float :=
  payment <- py_truediv (amount * (monthly_rate * p))%float (p - 1)%float ;;
  Ok (py_round2 payment).

(** The two quantities line 61 divides. *)
Definition annuity_numerator (amount monthly_rate : float) (term_months : Z)
  : result float :=
  p <- py_pow (1 + monthly_rate)%float term_months ;;
  Ok (amount * (monthly_rate * p))%float.

Definition annuity_denominator (monthly_rate : float) (term_months : Z)
  : result float :=
  p <- py_pow (1 + monthly_rate)%float term_months ;;
  Ok (p - 1)%float.

(** The outstanding balance after [k] monthly payments of [payment], with
    interest added to the balance each month at [monthly_rate]. *)
Fixpoint balance_after (k : nat) (balance monthly_rate payment : float) : float :=
  match k with
  | O => balance
  | S k' => balance_after k' (balance * (1 + monthly_rate) - payment)%float
                          monthly_rate payment
  end.

Section WithDateTime.
Context {DT : DateTimeLib}.

(** ** [generate_payment_schedule] *)

(** [SELECT ... FROM loans WHERE id=?] followed by [fetchone]. *)
Definition fetch_loan (db : DB) (loan_id : Z) : option Loan :=
  find (fun l => l_id l =? loan_id) (loans db).

(** [DELETE FROM payments WHERE loan_id=?]. *)
Definition delete_payments (db : DB) (loan_id : Z) : DB :=
  {| loans := loans db;
     loans_seq := loans_seq db;
     payments := filter (fun p => negb (p_loan_id p =? loan_id)) (payments db);
     payments_seq := payments_seq db |}.

(** [INSERT INTO payments (loan_id, payment_number, due_date, amount)]:
    the id is the next of the sequence, [paid] takes its default 0 and
    [payment_date] is NULL. *)
Definition insert_payment
    (db : DB) (loan_id payment_number : Z) (due_date : string) (amount : float)
  : DB :=
  let new_id := payments_seq db + 1 in
  {| loans := loans db;
     loans_seq := loans_seq db;
     payments := payments db ++
       [ {| p_id := new_id;
            p_loan_id := loan_id;
            p_payment_number := payment_number;
            p_due_date := due_date;
            p_amount := amount;
            p_paid := 0;
            p_payment_date := None |} ];
     payments_seq := new_id |}.

(** The body of the [for n in range(1, term_months + 1)] loop, over the
    numbers still to visit. *)
Fixpoint schedule_loop
    (start_date loan_id : Z) (payment_amount : float) (ns : list Z) (db : DB)
  : result DB :=
  match ns with
  | [] => Ok db
  | n :: rest =>
      td <- timedelta (30 * n) ;;
      due_date <- datetime_add start_date td ;;
      schedule_loop start_date loan_id payment_amount rest
        (insert_payment db loan_id n (strftime due_date) payment_amount)
  end.

(** The rows the loop inserts for the numbers [ns] when no step raises:
    the first takes the id after [seq]. *)
Fixpoint schedule_entries
    (start_date loan_id : Z) (payment_amount : float) (seq : Z) (ns : list Z)
  : list Payment :=
  match ns with
  | [] => []
  | n :: rest =>
      {| p_id := seq + 1;
         p_loan_id := loan_id;
         p_payment_number := n;
         p_due_date := strftime (start_date + 30 * n);
         p_amount := payment_amount;
         p_paid := 0;
         p_payment_date := None |}
      :: schedule_entries start_date loan_id payment_amount (seq + 1) rest
  end.

(** [Ok db'] is a normal return with the connection's state [db'].  A
    [Raise] is an exception that leaves the function: the statements after
    the raising one are not run, and [conn.commit()] is not reached. *)
Definition generate_payment_schedule (db : DB) (loan_id : Z) : result DB :=
  match fetch_loan db loan_id with
  | None => Ok db
  | Some row =>
      payment_amount <-
        calculate_annuity_payment (l_amount row) (l_interest_rate row * 100)%float
                                  (l_term_months row) ;;
      start_date <-
        match strptime (l_start_date row) with
        | Some d => Ok d
        | None => Raise ValueError
        end ;;
      schedule_loop start_date loan_id payment_amount
        (range 1 (l_term_months row + 1)) (delete_payments db loan_id)
  end.

(** ** [create_loan]; [today] is [datetime.now().strftime("%Y-%m-%d")].

    The REAL columns keep the float they are given.  SQLite stores a NaN
    as NULL, so that for a NaN amount or rate the script fails with a
    [TypeError] when the row is read back; such runs complete here. *)
Definition create_loan
    (today : string) (db : DB)
    (client_id : Z) (amount interest_rate_percent : float) (term_months : Z)
  : result DB :=
  let loan_id := loans_seq db + 1 in
  let db1 :=
    {| loans := loans db ++
         [ {| l_id := loan_id;
              l_client_id := client_id;
              l_amount := amount;
              l_interest_rate := (interest_rate_percent / 100)%float;
              l_term_months := term_months;
              l_start_date := today;
              l_status := STATUS_OPEN |} ];
       loans_seq := loan_id;
       payments := payments db;
       payments_seq := payments_seq db |} in
  generate_payment_schedule db1 loan_id.

End WithDateTime.

(** ** [pay_payment]; [payment_date] is [datetime.now().strftime("%Y-%m-%d")]. *)

(** [UPDATE payments SET paid=1, payment_date=? WHERE id=?]. *)
Definition mark_paid (payment_date : string) (payment_id : Z) (p : Payment)
  : Payment :=
  if p_id p =? payment_id then
    {| p_id := p_id p;
       p_loan_id := p_loan_id p;
       p_payment_number := p_payment_number p;
       p_due_date := p_due_date p;
       p_amount := p_amount p;
       p_paid := 1;
       p_payment_date := Some payment_date |}
  else p.

(** The scalar subquery [(SELECT loan_id FROM payments WHERE id=?)]: the
    first matching row's value, [None] (NULL) when no row matches. *)
Definition loan_of_payment (ps : list Payment) (payment_id : Z) : option Z :=
  option_map p_loan_id (find (fun p => p_id p =? payment_id) ps).

(** [loan_id = <subquery>]: a comparison with NULL selects no row. *)
Definition eq_scalar (x : Z) (sub : option Z) : bool :=
  match sub with
  | Some v => x =? v
  | None => false
  end.

(** [SELECT COUNT( * ) FROM payments WHERE loan_id=(...) AND paid=0]. *)
Definition count_unpaid (ps : list Payment) (sub : option Z) : Z :=
  Z.of_nat
    (List.length (filter (fun p => eq_scalar (p_loan_id p) sub && (p_paid p =? 0)) ps)).

(** [UPDATE loans SET status='Погашен' WHERE id=(...)]. *)
Definition set_repaid (sub : option Z) (l : Loan) : Loan :=
  if eq_scalar (l_id l) sub then
    {| l_id := l_id l;
       l_client_id := l_client_id l;
       l_amount := l_amount l;
       l_interest_rate := l_interest_rate l;
       l_term_months := l_term_months l;
       l_start_date := l_start_date l;
       l_status := STATUS_REPAID |}
  else l.

Definition pay_payment (payment_date : string) (db : DB) (payment_id : Z) : DB :=
  let paid_rows := map (mark_paid payment_date payment_id) (payments db) in
  let parent := loan_of_payment paid_rows payment_id in
  let remaining_unpaid := count_unpaid paid_rows parent in
  {| loans :=
       if remaining_unpaid =? 0 then map (set_repaid parent) (loans db)
       else loans db;
     loans_seq := loans_seq db;
     payments := paid_rows;
     payments_seq := payments_seq db |}.

(** ** Notions used to state the properties of the schedule *)

(** The [n]-th due day is not after 9999-12-31. *)
Definition in_calendar (start_date n : Z) : Prop :=
  0 <= n /\ start_date + 30 * n <= MAXORDINAL.

(** The due dates of a schedule, as days: a step of 30 from one to the next. *)
Definition due_days (start_date term_months : Z) : list Z :=
  map (fun n => start_date + 30 * n) (range 1 (term_months + 1)).

(** The primary keys: ids are unique and none is beyond its table's
    AUTOINCREMENT sequence. *)
Definition wf_db (db : DB) : Prop :=
  NoDup (map l_id (loans db))
  /\ Forall (fun l => l_id l <= loans_seq db) (loans db)
  /\ NoDup (map p_id (payments db))
  /\ Forall (fun p => p_id p <= payments_seq db) (payments db).

End Bank.

(** ** Sample databases (ISO dates) *)

Module BankSamples.
Import Py Bank.

Definition loan_2024 : Loan :=
  {| l_id := 1; l_client_id := 1; l_amount := 120000;
     l_interest_rate := 0.12; l_term_months := 3;
     l_start_date := "2024-01-31"; l_status := STATUS_OPEN |}.

Definition loan_9999 : Loan :=
  {| l_id := 1; l_client_id := 1; l_amount := 120000;
     l_interest_rate := 0.12; l_term_months := 1;
     l_start_date := "9999-12-31"; l_status := STATUS_OPEN |}.

Definition stale_payment (i loan : Z) : Payment :=
  {| p_id := i; p_loan_id := loan; p_payment_number := i;
     p_due_date := "2023-12-01"; p_amount := 1; p_paid := 1;
     p_payment_date := Some "2023-12-01"%string |}.

Definition db_2024 : DB :=
  {| loans := [loan_2024]; loans_seq := 1;
     payments := [stale_payment 1 1; stale_payment 2 7; stale_payment 3 1];
     payments_seq := 3 |}.

Definition db_9999 : DB :=
  {| loans := [loan_9999]; loans_seq := 1; payments := []; payments_seq := 0 |}.

(** A stored loan at the annual rate 1e-15 percent, with a schedule row
    from an earlier run. *)
Definition db_tiny_rate : DB :=
  {| loans :=
       [ {| l_id := 1; l_client_id := 1; l_amount := 1000;
            l_interest_rate := 1e-17; l_term_months := 12;
            l_start_date := "2024-01-31"; l_status := STATUS_OPEN |} ];
     loans_seq := 1;
     payments := [stale_payment 1 1];
     payments_seq := 1 |}.

(** A loan of two months, nothing paid yet. *)
Definition db_two_months : DB :=
  {| loans :=
       [ {| l_id := 1; l_client_id := 1; l_amount := 1000;
            l_interest_rate := 0; l_term_months := 2;
            l_start_date := "2024-01-31"; l_status := STATUS_OPEN |} ];
     loans_seq := 1;
     payments :=
       [ {| p_id := 1; p_loan_id := 1; p_payment_number := 1;
            p_due_date := "2024-03-01"; p_amount := 500; p_paid := 0;
            p_payment_date := None |};
         {| p_id := 2; p_loan_id := 1; p_payment_number := 2;
            p_due_date := "2024-03-31"; p_amount := 500; p_paid := 0;
            p_payment_date := None |} ];
     payments_seq := 2 |}.

End BankSamples.

(* ================================================================== *)
(** * The annuity formula in exact arithmetic *)
(* ================================================================== *)

Module Exact.
Local Open Scope Q_scope.

(** The rational a finite double stands for ([0] for infinities and NaN). *)
Definition float_value (x : float) : Q :=
  match Prim2SF x with
  | S754_finite s m e =>
      let v := if (0 <=? e)%Z then inject_Z (Z.pos m * 2 ^ e)
               else Z.pos m # Z.to_pos (2 ^ (- e)) in
      if s then - v else v
  | _ => 0
  end.

Fixpoint pow (x : Q) (n : nat) : Q :=
  match n with
  | O => 1
  | S n' => x * pow x n'
  end.

(** The expression of line 61 of src/sber_test/main.py, read over the
    rationals: every operation is exact and there is no final rounding. *)
Definition annuity (amount monthly_rate : Q) (term_months : nat) : Q :=
  amount * (monthly_rate * pow (1 + monthly_rate) term_months)
  / (pow (1 + monthly_rate) term_months - 1).

(** The balance after [k] payments, as [Bank.balance_after]. *)
Fixpoint balance_after (k : nat) (balance monthly_rate payment : Q) : Q :=
  match k with
  | O => balance
  | S k' => balance_after k' (balance * (1 + monthly_rate) - payment)
                          monthly_rate payment
  end.

End Exact.

(* ================================================================== *)
(** * The geodata tool: src/geolocation_app_complex_version/main_new.py *)
(* ================================================================== *)

Module Geo.
Import Py.

(** What the script hands to SQLite, in order. *)
Inductive SqlEvent : Type :=
| ToSql (db_path table : string)        (* DataFrame.to_sql(table, conn) *)
| Execute (db_path statement : string)  (* conn.execute(statement) *)
| ReadSql (db_path query : string).     (* pd.read_sql_query(query, conn) *)

(** The flags of [argparse] the modelled part of [main] reads;
    [filter] is [None] when the flag is absent. *)
Record Args : Type := mkArgs {
  csv : string;
  db : string;
  filter : option string
}.

Definition FILTER_PREFIX : string := "SELECT * FROM geolocations WHERE ".

Section WithLibraries.

(** pandas and sqlite3 are libraries: a [DataFrame] is a list of rows of
    some type, and the outcome of each call to the database is given by
    [sqlite], which sees what was sent before. *)
Variable Row : Type.
Definition DataFrame : Type := list Row.

Variable load_data : string -> result DataFrame.
Variable has_column : DataFrame -> string -> bool.
Variable sqlite : list SqlEvent -> SqlEvent -> result DataFrame.

(** Computations that send SQL and may raise: the log of what was sent is
    threaded through, and kept when an exception is raised. *)
Definition Sql (A : Type) : Type := list SqlEvent -> result A * list SqlEvent.

Definition ret {A : Type} (a : A) : Sql A := fun log => (Ok a, log).

Definition lift {A : Type} (r : result A) : Sql A := fun log => (r, log).

Definition bindS {A B : Type} (m : Sql A) (k : A -> Sql B) : Sql B :=
  fun log =>
    match m log with
    | (Ok a, log') => k a log'
    | (Raise e, log') => (Raise e, log')
    end.

Notation "x <~ m ;; k" := (bindS m (fun x => k))
  (at level 61, m at next level, right associativity).

(** One call to the database. *)
Definition send (ev : SqlEvent) : Sql DataFrame :=
  fun log => (sqlite log ev, log ++ [ev]).

(** [try: ... except Exception: return pd.DataFrame()]. *)
Definition try_or_empty (m : Sql DataFrame) : Sql DataFrame :=
  fun log =>
    match m log with
    | (Ok df, log') => (Ok df, log')
    | (Raise _, log') => (Ok [], log')
    end.

Definition save_to_db (df : DataFrame) (db_path : string) : Sql unit :=
  _ <~ send (ToSql db_path "geolocations") ;;
  _ <~ (if has_column df "cluster"
        then send (ToSql db_path "clusters") else ret []) ;;
  _ <~ send (Execute db_path
        "CREATE INDEX IF NOT EXISTS idx_lat_lon ON geolocations(latitude, longitude)") ;;
  _ <~ send (Execute db_path
        "CREATE INDEX IF NOT EXISTS idx_timestamp ON geolocations(timestamp)") ;;
  _ <~ send (Execute db_path
        "CREATE INDEX IF NOT EXISTS idx_country ON geolocations(country)") ;;
  ret tt.

Definition query_db (db_path query : string) : Sql DataFrame :=
  try_or_empty (send (ReadSql db_path query)).

(** Python's truth value of [args.filter]: [None] and the empty string
    are false. *)
Definition truthy (o : option string) : bool :=
  match o with
  | Some (String _ _) => true
  | _ => false
  end.

(** [main] from the parsed arguments to the end of the filtering block.
    [None] is an early [return]; [Some data] is the frame the rest of
    [main] (clustering, maps, reports: library calls that send no SQL)
    goes on with. *)
Definition main (args : Args) : Sql (option DataFrame) :=
  data <~ lift (load_data (csv args)) ;;
  match data with
  | [] => ret None
  | _ :: _ =>
      _ <~ save_to_db data (db args) ;;
      if truthy (filter args) then
        let query_str :=
          (FILTER_PREFIX ++ match filter args with Some f => f | None => "" end)%string in
        filtered_df <~ query_db (db args) query_str ;;
        match filtered_df with
        | [] => ret None
        | _ :: _ => ret (Some filtered_df)
        end
      else ret (Some data)
  end.

(** The queries of a log, in order. *)
Definition queries (log : list SqlEvent) : list (string * string) :=
  flat_map (fun ev => match ev with
                      | ReadSql p q => [(p, q)]
                      | _ => []
                      end) log.

End WithLibraries.

End Geo.

(* ================================================================== *)
(** * The partner tool: src/partner_app/partner_app.py *)
(* ================================================================== *)

Module PartnerApp.

(** The [Partner] dataclass. *)
Record Partner : Type := mkPartner {
  id : Z;
  name : string;
  email : string;
  phone : string;
  company : string;
  total_sales : float;
  commission_rate : float;
  join_date : string;
  status : string;
  notes : string;
  category : string;
  region : string;
  last_contact : string;
  priority : string;
  tags : string
}.

(** A row of [change_history]. *)
Record Change : Type := mkChange {
  ch_id : Z;
  ch_partner_id : Z;
  ch_field_name : string;
  ch_old_value : string;
  ch_new_value : string;
  ch_change_date : string;
  ch_user : string
}.

Record DB : Type := mkDB {
  partners : list Partner;
  change_history : list Change;
  change_history_seq : Z
}.

Section WithStr.

(** [str(x)] on a float is the library's shortest repr; [now i] is what
    [datetime.now().strftime('%Y-%m-%d %H:%M:%S')] gives when the loop
    reads the clock at element [i] of [changes]. *)
Variable float_str : float -> string.
Variable now : nat -> string.

(** [UPDATE partners SET name=?, ..., last_contact=? WHERE id=?]: the
    statement does not write [priority] and [tags]. *)
Definition update_row (partner row : Partner) : Partner :=
  if id row =? id partner then
    {| id := id row;
       name := name partner;
       email := email partner;
       phone := phone partner;
       company := company partner;
       total_sales := total_sales partner;
       commission_rate := commission_rate partner;
       join_date := join_date partner;
       status := status partner;
       notes := notes partner;
       category := category partner;
       region := region partner;
       last_contact := last_contact partner;
       priority := priority row;
       tags := tags row |}
  else row.

Definition update_partner (partner : Partner) (d : DB) : DB :=
  {| partners := map (update_row partner) (partners d);
     change_history := change_history d;
     change_history_seq := change_history_seq d |}.

(** The list [changes]: field name, old value, new value. *)
Definition changes (partner old_partner : Partner)
  : list (string * string * string) :=
  [ ("name", name old_partner, name partner);
    ("email", email old_partner, email partner);
    ("phone", phone old_partner, phone partner);
    ("company", company old_partner, company partner);
    ("total_sales", float_str (total_sales old_partner),
                    float_str (total_sales partner));
    ("status", status old_partner, status partner);
    ("category", category old_partner, category partner) ]%string.

(** [INSERT INTO change_history (partner_id, field_name, old_value,
    new_value, change_date, user)]. *)
Definition insert_change
    (d : DB) (partner_id : Z) (field old_val new_val date user : string) : DB :=
  let new_id := change_history_seq d + 1 in
  {| partners := partners d;
     change_history := change_history d ++
       [ {| ch_id := new_id;
            ch_partner_id := partner_id;
            ch_field_name := field;
            ch_old_value := old_val;
            ch_new_value := new_val;
            ch_change_date := date;
            ch_user := user |} ];
     change_history_seq := new_id |}.

(** The loop [for field, old_val, new_val in changes], from element [i]. *)
Fixpoint record_changes
    (partner_id : Z) (user : string) (i : nat)
    (cs : list (string * string * string)) (d : DB) : DB :=
  match cs with
  | [] => d
  | (field, old_val, new_val) :: rest =>
      record_changes partner_id user (S i) rest
        (if String.eqb old_val new_val then d
         else insert_change d partner_id field old_val new_val (now i) user)
  end.

Definition update_partner_with_history
    (partner old_partner : Partner) (user : string) (d : DB) : DB :=
  update_partner partner
    (record_changes (id partner) user 0 (changes partner old_partner) d).

End WithStr.

(** ** Notions used to state the properties of the log *)

(** What a row of the log says: field, old value, new value. *)
Definition entry_of (c : Change) : string * string * string :=
  (ch_field_name c, ch_old_value c, ch_new_value c).

(** The elements of [changes] whose two values differ. *)
Definition changed (cs : list (string * string * string))
  : list (string * string * string) :=
  List.filter (fun c => negb (String.eqb (snd (fst c)) (snd c))) cs.

Definition rows_of_field (field : string) (rows : list Change) : list Change :=
  List.filter (fun c => String.eqb (ch_field_name c) field) rows.

(** What the rows added by one update say of one field: a single row
    with the two values, the partner and the user when the values differ,
    no row when they are equal. *)
Definition logged
    (added : list Change) (partner_id : Z) (user field old_val new_val : string)
  : Prop :=
  (old_val <> new_val ->
   exists row, rows_of_field field added = [row]
               /\ ch_partner_id row = partner_id
               /\ ch_old_value row = old_val
               /\ ch_new_value row = new_val
               /\ ch_user row = user)
  /\ (old_val = new_val -> rows_of_field field added = []).

Definition TRACKED_FIELDS : list string :=
  ["name"; "email"; "phone"; "company"; "total_sales"; "status"; "category"]%string.

(** ** A sample update *)

Definition partner_before : Partner :=
  {| id := 7; name := "Anna"; email := "anna@old.example"; phone := "100";
     company := "ACME"; total_sales := 100; commission_rate := 0.1;
     join_date := "2024-01-01"; status := "active"; notes := "";
     category := "general"; region := "north"; last_contact := "2024-01-01";
     priority := "medium"; tags := "" |}.

Definition partner_after : Partner :=
  {| id := 7; name := "Anna"; email := "anna@new.example"; phone := "100";
     company := "ACME"; total_sales := 250.5; commission_rate := 0.2;
     join_date := "2024-01-01"; status := "active"; notes := "called";
     category := "general"; region := "north"; last_contact := "2024-02-01";
     priority := "medium"; tags := "" |}.

Definition sample_float_str (x : float) : string :=
  if PrimFloat.eqb x 100 then "100.0" else "250.5".

(** ** An update of the sales figure from 0.0 to -0.0 *)

Definition with_total_sales (x : float) (p : Partner) : Partner :=
  {| id := id p; name := name p; email := email p; phone := phone p;
     company := company p; total_sales := x;
     commission_rate := commission_rate p; join_date := join_date p;
     status := status p; notes := notes p; category := category p;
     region := region p; last_contact := last_contact p;
     priority := priority p; tags := tags p |}.

Definition partner_zero_sales : Partner := with_total_sales 0 partner_before.
Definition partner_negzero_sales : Partner := with_total_sales (-0) partner_before.

(** [str] on the two zeros, [sample_float_str] elsewhere. *)
Definition zero_float_str (x : float) : string :=
  match Prim2SF x with
  | S754_zero false => "0.0"
  | S754_zero true => "-0.0"
  | _ => sample_float_str x
  end.

End PartnerApp.

(* ================================================================== *)
(** * The calculator: src/enhanced_calculator.py *)
(* ================================================================== *)

Module Calculator.

(** An entry of [self.history]: the dict built by [add_to_history]. *)
Record Entry : Type := mkEntry {
  timestamp : string;
  expression : string;
  result : string;
  type : string
}.

(** The calculator object and its history file; [file] is [None] while
    the file does not exist. *)
Record AdvancedCalculator : Type := mkCalculator {
  history : list Entry;
  memory : float;
  angle_mode : string;
  file : option (list Entry)
}.

(** [l[-k:]]: the last [k] elements, the whole list when it is shorter. *)
Definition slice_last {A : Type} (k : nat) (l : list A) : list A :=
  skipn (List.length l - k) l.

(** [save_history]: [writable] tells whether opening and writing the file
    succeeds; a failure is swallowed by the bare [except]. *)
Definition save_history (writable : bool) (self : AdvancedCalculator)
  : AdvancedCalculator :=
  if writable then
    {| history := history self;
       memory := memory self;
       angle_mode := angle_mode self;
       file := Some (history self) |}
  else self.

(** [add_to_history]; [now] is the formatted [datetime.now()]. *)
Definition add_to_history
    (now : string) (writable : bool)
    (expression result operation_type : string) (self : AdvancedCalculator)
  : AdvancedCalculator :=
  let entry :=
    {| timestamp := now;
       expression := expression;
       result := result;
       type := operation_type |} in
  let appended := history self ++ [entry] in
  let kept :=
    if (100 <? List.length appended)%nat then slice_last 100 appended
    else appended in
  save_history writable
    {| history := kept;
       memory := memory self;
       angle_mode := angle_mode self;
       file := file self |}.

Definition clear_history (writable : bool) (self : AdvancedCalculator)
  : AdvancedCalculator :=
  save_history writable
    {| history := [];
       memory := memory self;
       angle_mode := angle_mode self;
       file := file self |}.

(** Adding the entries [es] one after the other. *)
Fixpoint add_all (writable : bool) (es : list Entry) (self : AdvancedCalculator)
  : AdvancedCalculator :=
  match es with
  | [] => self
  | e :: rest =>
      add_all writable rest
        (add_to_history (timestamp e) writable (expression e) (result e) (type e) self)
  end.

End Calculator.

(* ================================================================== *)
(** * The bank demo: clients, listings and the states a run reaches *)
(* ================================================================== *)

Module BankLedger.
Import Py Bank.

(** A row of [clients]. *)
Record Client : Type := mkClient {
  c_id : Z;
  c_name : string;
  c_birthdate : string;
  c_phone : string;
  c_email : string;
  c_registration_date : string
}.

(** The [clients] table with its AUTOINCREMENT sequence. *)
Record ClientTable : Type := mkClientTable {
  clients : list Client;
  clients_seq : Z
}.

(** [register_client]; [reg_date] is [datetime.now().strftime("%Y-%m-%d")]. *)
Definition register_client
    (reg_date : string) (t : ClientTable) (name birthdate phone email : string)
  : ClientTable :=
  let new_id := clients_seq t + 1 in
  {| clients := clients t ++
       [ {| c_id := new_id;
            c_name := name;
            c_birthdate := birthdate;
            c_phone := phone;
            c_email := email;
            c_registration_date := reg_date |} ];
     clients_seq := new_id |}.

(** [list_clients]: [SELECT * FROM clients]. *)
Definition list_clients (t : ClientTable) : list Client := clients t.

(** A tuple of [list_loans]: the columns of its SELECT. *)
Record LoanLine : Type := mkLoanLine {
  ll_id : Z;
  ll_client_name : string;
  ll_amount : float;
  ll_interest_rate : float;
  ll_term_months : Z;
  ll_start_date : string;
  ll_status : string
}.

Definition loan_line (l : Loan) (c : Client) : LoanLine :=
  {| ll_id := l_id l;
     ll_client_name := c_name c;
     ll_amount := l_amount l;
     ll_interest_rate := l_interest_rate l;
     ll_term_months := l_term_months l;
     ll_start_date := l_start_date l;
     ll_status := l_status l |}.

(** [list_loans]: [loans JOIN clients ON loans.client_id=clients.id], an
    inner join.  The statement has no ORDER BY: the order of the lines is
    the engine's, and nothing below depends on it. *)
Definition list_loans (t : ClientTable) (db : DB) : list LoanLine :=
  flat_map
    (fun l => map (loan_line l)
                  (filter (fun c => c_id c =? l_client_id l) (clients t)))
    (loans db).

(** The loan row [create_loan] inserts. *)
Definition new_loan (today : string) (db : DB) (client_id : Z)
    (amount interest_rate_percent : float) (term_months : Z) : Loan :=
  {| l_id := loans_seq db + 1;
     l_client_id := client_id;
     l_amount := amount;
     l_interest_rate := (interest_rate_percent / 100)%float;
     l_term_months := term_months;
     l_start_date := today;
     l_status := STATUS_OPEN |}.

(** The rows of [payments] that belong to a loan, in table order. *)
Definition schedule_of (db : DB) (loan_id : Z) : list Payment :=
  filter (fun p => p_loan_id p =? loan_id) (payments db).

(** Menu choice 6 taken for each id of [ids] in turn. *)
Definition pay_all (payment_date : string) (ids : list Z) (db : DB) : DB :=
  fold_left (fun d i => pay_payment payment_date d i) ids db.

Section WithDateTime.
Context {DT : DateTimeLib}.

(** The states of the two tables a run of [main] goes through: it starts
    from the empty tables of [create_tables] and changes them with
    [create_loan] (choice 2, when the call returns) and [pay_payment]
    (choice 6). *)
Inductive reachable : DB -> Prop :=
| reachable_start : reachable empty_db
| reachable_create_loan (db db' : DB) (today : string) (client_id : Z)
    (amount interest_rate_percent : float) (term_months : Z) :
    reachable db ->
    create_loan today db client_id amount interest_rate_percent term_months
    = Ok db' ->
    reachable db'
| reachable_pay_payment (db : DB) (payment_date : string) (payment_id : Z) :
    reachable db ->
    reachable (pay_payment payment_date db payment_id).

End WithDateTime.

(** What holds of the tables in every state a run reaches. *)
Record consistent (db : DB) : Prop := mkConsistent {
  (** primary keys *)
  cs_keys : wf_db db;
  (** every schedule row belongs to a stored loan *)
  cs_parent : Forall (fun p => In (p_loan_id p) (map l_id (loans db)))
                     (payments db);
  (** each schedule is numbered 1..term_months, in order *)
  cs_numbers : forall l, In l (loans db) ->
      map p_payment_number (schedule_of db (l_id l))
      = range 1 (l_term_months l + 1);
  (** each row carries the annuity payment of its loan *)
  cs_amount : forall l p, In l (loans db) -> In p (schedule_of db (l_id l)) ->
      calculate_annuity_payment (l_amount l) (l_interest_rate l * 100)%float
                                (l_term_months l) = Ok (p_amount p);
  (** the flag is 0 or 1 *)
  cs_flag : Forall (fun p => p_paid p = 0 \/ p_paid p = 1) (payments db);
  (** the only statuses written are the open and the repaid one *)
  cs_status : forall l, In l (loans db) ->
      l_status l = STATUS_OPEN \/ l_status l = STATUS_REPAID;
  (** repaid means: there is a schedule and all of it is paid *)
  cs_repaid : forall l, In l (loans db) ->
      (l_status l = STATUS_REPAID
       <-> schedule_of db (l_id l) <> []
           /\ Forall (fun p => p_paid p = 1) (schedule_of db (l_id l)))
}.

(** The columns of a payment row and of a loan row that a payment must not
    touch. *)
Definition payment_terms (p : Payment) : Z * Z * Z * string * float :=
  (p_id p, p_loan_id p, p_payment_number p, p_due_date p, p_amount p).

Definition loan_terms (l : Loan) : Z * Z * float * float * Z * string :=
  (l_id l, l_client_id l, l_amount l, l_interest_rate l, l_term_months l,
   l_start_date l).

(** Marking the rows of several payments, one id after the other. *)
Definition mark_many (d : string) (ids : list Z) (p : Payment) : Payment :=
  fold_left (fun q i => mark_paid d i q) ids p.

(** A run from the empty tables: one loan of two months for client 1. *)
Definition sample_run : DB :=
  match create_loan (DT := iso_datetime) "2024-01-31" empty_db 1 1000 12 2 with
  | Ok db => db
  | Raise _ => empty_db
  end.

(** The same run after a loan is taken for client 42, who is not
    registered. *)
Definition sample_orphan : DB :=
  match create_loan (DT := iso_datetime) "2024-02-15" sample_run 42 500 0 3 with
  | Ok db => db
  | Raise _ => empty_db
  end.

(** One registered client. *)
Definition sample_clients : ClientTable :=
  register_client "2024-01-01" {| clients := []; clients_seq := 0 |}
    "Anna" "1990-05-05" "100" "anna@example.org".

End BankLedger.

(* ================================================================== *)
(** * The partner tool: the tables and the analytics *)
(* ================================================================== *)

Module PartnerStore.
Import PartnerApp.

(** A row of [sales_history]. *)
Record Sale : Type := mkSale {
  s_id : Z;
  s_partner_id : Z;
  s_amount : float;
  s_date : string;
  s_description : string
}.

(** A row of [contacts]. *)
Record Contact : Type := mkContact {
  k_id : Z;
  k_partner_id : Z;
  k_contact_type : string;
  k_date : string;
  k_notes : string
}.

(** The tables [DatabaseManager] works on: those of [PartnerApp.DB], the
    AUTOINCREMENT sequence of [partners], and the two tables
    [delete_partner] also clears. *)
Record Store : Type := mkStore {
  tables : DB;
  partners_seq : Z;
  sales_history : list Sale;
  contacts : list Contact
}.

(** The [partners] table has thirteen columns: [priority] and [tags] are
    fields of the dataclass only.  A row is kept as a [Partner] whose two
    extra fields hold the dataclass defaults. *)
Definition read_row (row : Partner) : Partner :=
  {| id := id row;
     name := name row;
     email := email row;
     phone := phone row;
     company := company row;
     total_sales := total_sales row;
     commission_rate := commission_rate row;
     join_date := join_date row;
     status := status row;
     notes := notes row;
     category := category row;
     region := region row;
     last_contact := last_contact row;
     priority := "medium";
     tags := "" |}.

Definition with_id (new_id : Z) (partner : Partner) : Partner :=
  {| id := new_id;
     name := name partner;
     email := email partner;
     phone := phone partner;
     company := company partner;
     total_sales := total_sales partner;
     commission_rate := commission_rate partner;
     join_date := join_date partner;
     status := status partner;
     notes := notes partner;
     category := category partner;
     region := region partner;
     last_contact := last_contact partner;
     priority := priority partner;
     tags := tags partner |}.

(** [add_partner]: the INSERT names twelve columns, the id is the next of
    the sequence and is returned ([cursor.lastrowid]). *)
Definition add_partner (partner : Partner) (s : Store) : Z * Store :=
  let partner_id := partners_seq s + 1 in
  (partner_id,
   {| tables :=
        {| partners := partners (tables s)
             ++ [read_row (with_id partner_id partner)];
           change_history := change_history (tables s);
           change_history_seq := change_history_seq (tables s) |};
      partners_seq := partner_id;
      sales_history := sales_history s;
      contacts := contacts s |}).

(** [get_all_partners]: [SELECT * FROM partners], each row made a
    [Partner] from its thirteen columns. *)
Definition get_all_partners (s : Store) : list Partner :=
  map read_row (partners (tables s)).

(** [update_partner] on the store. *)
Definition update_partner (partner : Partner) (s : Store) : Store :=
  {| tables := PartnerApp.update_partner partner (tables s);
     partners_seq := partners_seq s;
     sales_history := sales_history s;
     contacts := contacts s |}.

(** [delete_partner]: three DELETE statements. *)
Definition delete_partner (partner_id : Z) (s : Store) : Store :=
  {| tables :=
       {| partners :=
            List.filter (fun p => negb (id p =? partner_id)) (partners (tables s));
          change_history := change_history (tables s);
          change_history_seq := change_history_seq (tables s) |};
     partners_seq := partners_seq s;
     sales_history :=
       List.filter (fun x => negb (s_partner_id x =? partner_id)) (sales_history s);
     contacts :=
       List.filter (fun x => negb (k_partner_id x =? partner_id)) (contacts s) |}.

(** ** [AnalyticsManager.get_category_distribution]

    A Python dict from category to count, kept as the list of its items
    in insertion order. *)

Fixpoint dict_get (k : string) (d : list (string * Z)) (default : Z) : Z :=
  match d with
  | [] => default
  | (k', v) :: rest => if String.eqb k' k then v else dict_get k rest default
  end.

(** [d[k] = v]: a key already present keeps its place. *)
Fixpoint dict_set (k : string) (v : Z) (d : list (string * Z))
  : list (string * Z) :=
  match d with
  | [] => [(k, v)]
  | (k', v') :: rest =>
      if String.eqb k' k then (k, v) :: rest else (k', v') :: dict_set k v rest
  end.

(** [partner.category or 'general']. *)
Definition category_or_general (partner : Partner) : string :=
  match category partner with
  | EmptyString => "general"
  | c => c
  end.

(** The loop body: [distribution[category] = distribution.get(category, 0) + 1]. *)
Definition count_category (distribution : list (string * Z)) (partner : Partner)
  : list (string * Z) :=
  let c := category_or_general partner in
  dict_set c (dict_get c distribution 0 + 1) distribution.

Definition get_category_distribution (s : Store) : list (string * Z) :=
  fold_left count_category (get_all_partners s) [].

(** The ids of [partners] are within the sequence (AUTOINCREMENT) and
    unique (PRIMARY KEY). *)
Definition store_keys (s : Store) : Prop :=
  NoDup (map id (partners (tables s)))
  /\ Forall (fun p => id p <= partners_seq s) (partners (tables s)).

(** How many partners fall in a category. *)
Definition in_category (c : string) (ps : list Partner) : Z :=
  Z.of_nat (List.length
              (List.filter (fun p => String.eqb (category_or_general p) c) ps)).

(** What the loop keeps true of the dict built from the partners seen. *)
Definition counted (ps : list Partner) (dist : list (string * Z)) : Prop :=
  NoDup (map fst dist)
  /\ (forall c, dict_get c dist 0 = in_category c ps)
  /\ (forall c v, In (c, v) dist -> 0 < v)
  /\ fold_right Z.add 0 (map snd dist) = Z.of_nat (List.length ps).

(** ** A sample store *)

Definition empty_store : Store :=
  {| tables := {| partners := []; change_history := []; change_history_seq := 0 |};
     partners_seq := 0;
     sales_history := [];
     contacts := [] |}.

Definition partner_vip : Partner :=
  {| id := 0; name := "Boris"; email := "boris@example.org"; phone := "200";
     company := "Globex"; total_sales := 20000; commission_rate := 0.1;
     join_date := "2024-01-01"; status := "active"; notes := "";
     category := "vip"; region := "south"; last_contact := "2024-01-01";
     priority := "high"; tags := "key account" |}.

Definition sample_store : Store :=
  snd (add_partner partner_vip (snd (add_partner partner_before empty_store))).

End PartnerStore.

(* ================================================================== *)
(** * The calculator: what is shown and what is converted *)
(* ================================================================== *)

Module CalculatorOps.
Import Py Calculator.

(** ** show_history *)

(** [l[start:]]: a negative [start] counts from the end and is clipped to
    the front of the list. *)
Definition py_slice_from {A : Type} (start : Z) (l : list A) : list A :=
  if start <? 0 then
    skipn (Z.to_nat (Z.max 0 (Z.of_nat (List.length l) + start))) l
  else skipn (Z.to_nat start) l.

(** The lines [show_history] prints. *)
Inductive Line : Type :=
| EmptyNotice            (* История вычислений пуста. *)
| Header (count : Z)     (* Последние {count} вычислений: *)
| Rule                   (* "-" * 60 *)
| Item (entry : Entry).  (* [{timestamp}] {expression} = {result} ({type}) *)

Definition show_history (limit : Z) (self : AdvancedCalculator) : list Line :=
  match history self with
  | [] => [EmptyNotice]
  | _ :: _ =>
      Header (Z.min limit (Z.of_nat (List.length (history self))))
      :: Rule
      :: map Item (py_slice_from (- limit) (history self))
  end.

(** The count the header announces, and the entries listed under it. *)
Definition announced (lines : list Line) : option Z :=
  match lines with
  | Header count :: _ => Some count
  | _ => None
  end.

Definition listed (lines : list Line) : list Entry :=
  flat_map (fun line => match line with Item e => [e] | _ => [] end) lines.

(** ** Exceptions and the conversion table *)

(** The exceptions the conversion code could raise. *)
Inductive Exn : Type :=
| TypeError
| KeyError
| IndexError
| Builtin (e : PyError).

Inductive outcome (A : Type) : Type :=
| Return (a : A)
| Throws (e : Exn).
Arguments Return {A} a.
Arguments Throws {A} e.

Definition and_then {A B : Type} (m : outcome A) (k : A -> outcome B)
  : outcome B :=
  match m with
  | Return a => k a
  | Throws e => Throws e
  end.

(** The values of the inner dicts: factors, and letters for temperature. *)
Inductive Value : Type :=
| Num (f : float)
| Str (s : string).

Definition Units : Type := list (string * Value).

Definition conversions : list (string * Units) :=
  [ ("length",
     [ ("m", Num 1.0); ("km", Num 1000.0); ("cm", Num 0.01);
       ("mm", Num 0.001); ("mi", Num 1609.34); ("yd", Num 0.9144);
       ("ft", Num 0.3048); ("in", Num 0.0254) ]);
    ("weight",
     [ ("kg", Num 1.0); ("g", Num 0.001); ("mg", Num 0.000001);
       ("lb", Num 0.453592); ("oz", Num 0.0283495) ]);
    ("temperature",
     [ ("celsius", Str "c"); ("fahrenheit", Str "f"); ("kelvin", Str "k") ]);
    ("area",
     [ ("m2", Num 1.0); ("km2", Num 1000000.0); ("cm2", Num 0.0001);
       ("ha", Num 10000.0); ("acres", Num 4046.86) ]);
    ("volume",
     [ ("m3", Num 1.0); ("l", Num 0.001); ("ml", Num 0.000001);
       ("gal", Num 0.00378541); ("qt", Num 0.000946353) ]) ]%string%float.

(** The inner dict of the temperature scales. *)
Definition temperature_units : Units :=
  [ ("celsius", Str "c"); ("fahrenheit", Str "f"); ("kelvin", Str "k") ]%string.

(** A dict of non-zero factors. *)
Definition numeric (units : Units) : bool :=
  forallb (fun kv => match snd kv with
                     | Num f => negb (f =? 0)%float
                     | Str _ => false
                     end) units.

(** [key in d] and [d[key]]. *)
Definition has_key {V : Type} (key : string) (d : list (string * V)) : bool :=
  existsb (fun kv => String.eqb (fst kv) key) d.

Definition getitem {V : Type} (key : string) (d : list (string * V))
  : outcome V :=
  match List.find (fun kv => String.eqb (fst kv) key) d with
  | Some kv => Return (snd kv)
  | None => Throws KeyError
  end.

(** [x * v] and [x / v] for a float [x] and a value of the table. *)
Definition mul_value (x : float) (v : Value) : outcome float :=
  match v with
  | Num f => Return (x * f)%float
  | Str _ => Throws TypeError
  end.

Definition truediv (x y : float) : outcome float :=
  match py_truediv x y with
  | Ok r => Return r
  | Raise e => Throws (Builtin e)
  end.

Definition div_value (x : float) (v : Value) : outcome float :=
  match v with
  | Num f => truediv x f
  | Str _ => Throws TypeError
  end.

(** [s[0].upper()] on the ASCII letters the unit names start with. *)
Definition first_upper (s : string) : outcome string :=
  match s with
  | EmptyString => Throws IndexError
  | String c _ =>
      let n := nat_of_ascii c in
      Return (String (if ((97 <=? n) && (n <=? 122))%nat
                      then ascii_of_nat (n - 32) else c) EmptyString)
  end.

Section WithFormat.

(** [str(x)] and [format(x, '.{digits}f')] of a float. *)
Variable float_str : float -> string.
Variable float_fixed : nat -> float -> string.

(** ** calculate_percentage *)

Definition calculate_percentage (value percentage : float) (operation : string)
  : Py.result (option float * string)%type :=
  if String.eqb operation "of" then
    r <- py_truediv (value * percentage)%float 100%float ;;
    Ok (Some r,
        float_str percentage ++ "% от " ++ float_str value ++ " = "
        ++ float_str r)%string
  else if String.eqb operation "increase" then
    q <- py_truediv percentage 100%float ;;
    let r := (value * (1 + q))%float in
    Ok (Some r,
        float_str value ++ " + " ++ float_str percentage ++ "% = "
        ++ float_str r)%string
  else if String.eqb operation "decrease" then
    q <- py_truediv percentage 100%float ;;
    let r := (value * (1 - q))%float in
    Ok (Some r,
        float_str value ++ " - " ++ float_str percentage ++ "% = "
        ++ float_str r)%string
  else if String.eqb operation "change" then
    if negb (value =? 0)%float then
      q <- py_truediv (percentage - value)%float value ;;
      let r := (q * 100)%float in
      Ok (Some r,
          "Изменение от " ++ float_str value ++ " до " ++ float_str percentage
          ++ " = " ++ float_fixed 2 r ++ "%")%string
    else Ok (None, "Ошибка: деление на ноль"%string)
  else Ok (None, "Неизвестная процентная операция"%string).

(** ** unit_conversion *)

Definition _convert_temperature (value : float) (from_unit to_unit : string)
  : outcome (option float * string)%type :=
  and_then
    (if String.eqb from_unit "fahrenheit" then
       truediv ((value - 32) * 5)%float 9%float
     else if String.eqb from_unit "kelvin" then Return (value - 273.15)%float
     else Return value)
    (fun celsius =>
  and_then
    (if String.eqb to_unit "fahrenheit" then
       and_then (truediv (celsius * 9)%float 5%float)
                (fun q => Return (q + 32)%float)
     else if String.eqb to_unit "kelvin" then Return (celsius + 273.15)%float
     else Return celsius)
    (fun r =>
  and_then (first_upper from_unit) (fun f =>
  and_then (first_upper to_unit) (fun t =>
  Return (Some r,
          float_str value ++ "°" ++ f ++ " = " ++ float_fixed 2 r ++ "°" ++ t)
         %string)))).

Definition unit_conversion (value : float) (from_unit to_unit : string)
  : outcome (option float * string)%type :=
  and_then (getitem "temperature" conversions) (fun temperature =>
  if has_key from_unit temperature && has_key to_unit temperature then
    _convert_temperature value from_unit to_unit
  else
    match List.find (fun cu => has_key from_unit (snd cu)
                               && has_key to_unit (snd cu)) conversions with
    | None =>
        Return (None,
                "Неподдерживаемое преобразование: " ++ from_unit ++ " → "
                ++ to_unit)%string
    | Some (category, _) =>
        and_then (getitem category conversions) (fun units =>
        and_then (getitem from_unit units) (fun from_factor =>
        and_then (mul_value value from_factor) (fun base_value =>
        and_then (getitem to_unit units) (fun to_factor =>
        and_then (div_value base_value to_factor) (fun r =>
        Return (Some r,
                float_str value ++ " " ++ from_unit ++ " = "
                ++ float_fixed 6 r ++ " " ++ to_unit)%string)))))
    end).

End WithFormat.

(** The unit names [unit_conversion_menu] shows for each category. *)
Definition menu_categories : list (string * (string * list string)) :=
  [ ("1", ("length", ["м"; "км"; "см"; "мм"; "мили"; "ярды"; "футы"; "дюймы"]));
    ("2", ("weight", ["кг"; "г"; "мг"; "фунты"; "унции"]));
    ("3", ("temperature", ["Цельсий"; "Фаренгейт"; "Кельвин"]));
    ("4", ("area", ["м²"; "км²"; "см²"; "га"; "акры"]));
    ("5", ("volume", ["м³"; "л"; "мл"; "галлоны"; "кварты"])) ]%string.

Definition sample_entry (k : Z) : Entry :=
  {| timestamp := "2024-01-01 00:00:00";
     expression := "1.0 + 1.0";
     result := "2.0";
     type := if k =? 0 then "basic" else "memory" |}.

Definition sample_calculator : AdvancedCalculator :=
  {| history := [sample_entry 0; sample_entry 1; sample_entry 0];
     memory := 0%float;
     angle_mode := "degrees";
     file := None |}.

End CalculatorOps.

(* ================================================================== *)
(** * The geodata tool: colours and coordinates *)
(* ================================================================== *)

Module GeoMap.

(** [l[i]]: a negative index counts from the end; [None] is [IndexError]. *)
Definition py_index {A : Type} (l : list A) (i : Z) : option A :=
  let n := Z.of_nat (List.length l) in
  let j := if i <? 0 then i + n else i in
  if (0 <=? j) && (j <? n) then nth_error l (Z.to_nat j) else None.

Definition colors : list string :=
  [ "red"; "blue"; "green"; "purple"; "orange"; "darkred"; "lightred";
    "beige"; "darkblue"; "darkgreen"; "cadetblue"; "darkpurple"; "white";
    "pink"; "lightblue"; "lightgreen"; "gray"; "black"; "lightgray" ]%string.

(** [_get_cluster_color]: Python's [%] takes the sign of the divisor, as
    [Z.modulo] does. *)
Definition _get_cluster_color (cluster_id : Z) : option string :=
  py_index colors (cluster_id mod Z.of_nat (List.length colors)).

(** [DataValidator.validate_coordinates]: chained comparisons of floats. *)
Definition validate_coordinates (lat lon : float) : bool :=
  ((-90 <=? lat) && (lat <=? 90) && ((-180 <=? lon) && (lon <=? 180)))%float.

End GeoMap.

(* ================================================================== *)
(** * Facts about the Python values *)
(* ================================================================== *)

Module PyFacts.
Import Py.

Lemma float_neq (x y : float) : Prim2SF x <> Prim2SF y -> x <> y.
Proof. intros H E. apply H. now rewrite E. Qed.

(** A base of exactly one is answered before libm is called. *)
Lemma py_pow_one (n : Z) : py_pow 1 n = Ok 1%float.
Proof.
  unfold py_pow. destruct (n =? 0); reflexivity.
Qed.

Lemma py_truediv_zero (x : float) : py_truediv x 0 = Raise ZeroDivisionError.
Proof. reflexivity. Qed.

Lemma py_truediv_ok (x y : float) :
  (y =? 0)%float = false -> py_truediv x y = Ok (x / y)%float.
Proof. unfold py_truediv. now intros ->. Qed.

Lemma range_length (lo hi : Z) : List.length (range lo hi) = Z.to_nat (hi - lo).
Proof. unfold range. now rewrite length_map, length_seq. Qed.

Lemma range_nth (lo hi : Z) (k : nat) :
  (k < Z.to_nat (hi - lo))%nat -> nth k (range lo hi) 0 = lo + Z.of_nat k.
Proof.
  intros Hk. unfold range.
  set (f := fun j : nat => lo + Z.of_nat j).
  transitivity (nth k (map f (seq 0 (Z.to_nat (hi - lo)))) (f O)).
  - apply nth_indep. now rewrite length_map, length_seq.
  - rewrite map_nth, seq_nth by assumption. reflexivity.
Qed.

Lemma range_In (lo hi n : Z) : In n (range lo hi) <-> lo <= n < hi.
Proof.
  unfold range. rewrite in_map_iff. split.
  - intros (k & <- & Hk). apply in_seq in Hk. lia.
  - intros Hn. exists (Z.to_nat (n - lo)). split; [lia|].
    apply in_seq. lia.
Qed.

End PyFacts.

(* ================================================================== *)
(** * The annuity formula amortises the loan in exact arithmetic *)
(* ================================================================== *)

Module ExactFacts.
Import Exact.
Local Open Scope Q_scope.

Lemma pow_gt_one (x : Q) (n : nat) : 1 < x -> (0 < n)%nat -> 1 < pow x n.
Proof.
  intros Hx Hn. induction n as [|n IH]; [lia|].
  cbn [pow]. destruct n as [|n].
  - cbn [pow]. now rewrite Qmult_1_r.
  - assert (H1 : 1 < pow x (S n)) by (apply IH; lia).
    apply Qlt_trans with (1 * pow x (S n)).
    + now rewrite Qmult_1_l.
    + apply Qmult_lt_compat_r; [|assumption].
      apply Qlt_trans with 1; [reflexivity|assumption].
Qed.

(** Closed form of the balance, cleared of the division by the rate. *)
Lemma balance_closed_form (k : nat) (b r p : Q) :
  balance_after k b r p * r
  == b * r * pow (1 + r) k - p * (pow (1 + r) k - 1).
Proof.
  revert b. induction k as [|k IH]; intros b; cbn [balance_after pow].
  - ring.
  - rewrite IH. ring.
Qed.

(** Paying [p'] instead of [p] moves the final balance by the difference
    of the payments times the annuity factor. *)
Lemma balance_payment_shift (k : nat) (b r p p' : Q) :
  balance_after k b r p' * r
  == balance_after k b r p * r - (p' - p) * (pow (1 + r) k - 1).
Proof. rewrite !balance_closed_form. ring. Qed.

(** In exact arithmetic the payment of the formula repays the loan: after
    [n] payments the balance is zero. *)
Lemma annuity_amortizes (amount r : Q) (n : nat) :
  0 < r -> (0 < n)%nat ->
  balance_after n amount r (annuity amount r n) == 0.
Proof.
  intros Hr Hn.
  assert (Hp : 1 < pow (1 + r) n).
  { apply pow_gt_one; [|assumption].
    rewrite <- (Qplus_0_r 1) at 1. apply Qplus_lt_r. assumption. }
  assert (Hd : ~ pow (1 + r) n - 1 == 0).
  { intros E. apply Qlt_not_eq in Hp. apply Hp.
    rewrite <- (Qplus_0_l 1) at 1. rewrite <- E. ring. }
  assert (H : balance_after n amount r (annuity amount r n) * r == 0).
  { rewrite balance_closed_form. unfold annuity. field. exact Hd. }
  apply Qmult_integral in H. destruct H as [H|H]; [exact H|].
  rewrite H in Hr. discriminate Hr.
Qed.

End ExactFacts.

(* ================================================================== *)
(** * The bank demo: the annuity payment *)
(* ================================================================== *)

Module AnnuityFacts.
Import Py Bank PyFacts.
Local Open Scope float_scope.

(** The rate of the zero-rate branch. *)
Lemma zero_rate_monthly : (0 / 100 / 12 =? 0) = true.
Proof. reflexivity. Qed.

(** In the zero-rate branch the only division is by [term_months]. *)
Lemma zero_rate_branch (amount : float) (term_months : Z) :
  calculate_annuity_payment amount 0 term_months
  = (n <- float_of_int term_months ;; q <- py_truediv amount n ;; Ok (py_round2 q)).
Proof. reflexivity. Qed.

(** Every term of one to a hundred years converts to a non-zero double. *)
Lemma float_of_int_terms :
  forallb (fun t => match float_of_int t with
                    | Ok n => negb (n =? 0)
                    | Raise _ => false
                    end) (range 1 1201) = true.
Proof. vm_compute. reflexivity. Qed.

Lemma float_of_int_terms_ok (t : Z) :
  1 <= t <= 1200 ->
  exists n, float_of_int t = Ok n /\ (n =? 0) = false.
Proof.
  intros Ht. pose proof float_of_int_terms as H.
  rewrite forallb_forall in H. specialize (H t).
  destruct (float_of_int t) as [n|e].
  - exists n. split; [reflexivity|].
    apply negb_true_iff. apply H. apply range_In. lia.
  - assert (F : false = true) by (apply H; apply range_In; lia).
    discriminate F.
Qed.

(** For terms of one month to a hundred years the zero-rate payment is
    the rounded quotient, whatever the amount. *)
Lemma zero_rate_payment_common_terms (amount : float) (t : Z) :
  1 <= t <= 1200 ->
  exists n, float_of_int t = Ok n
            /\ calculate_annuity_payment amount 0 t = Ok (py_round2 (amount / n)).
Proof.
  intros Ht. destruct (float_of_int_terms_ok t Ht) as (n & Hn & Hz).
  exists n. split; [exact Hn|].
  rewrite zero_rate_branch, Hn. cbn [bind].
  now rewrite (py_truediv_ok _ _ Hz).
Qed.

(** C4 (as amended): with an annual rate of zero the function returns the
    quotient [amount / term_months] rounded to two decimals by [round],
    for every amount and every term whose conversion to a float is a
    non-zero double. *)
Theorem zero_rate_payment_is_rounded_quotient
    (amount : float) (term_months : Z) (n : float) :
  float_of_int term_months = Ok n ->
  (n =? 0) = false ->
  calculate_annuity_payment amount 0 term_months = Ok (py_round2 (amount / n)).
Proof.
  intros Hn Hz. rewrite zero_rate_branch, Hn. cbn [bind].
  rewrite (py_truediv_ok _ _ Hz). reflexivity.
Qed.

Lemma zero_rate_payment_witness :
  calculate_annuity_payment 1000 0 12 = Ok (py_round2 (1000 / 12)).
Proof.
  apply (zero_rate_payment_is_rounded_quotient 1000 12 12); reflexivity.
Defined.

(** C4 as stated fails: 100 over 3 months at rate 0 is answered 33.33,
    which is not the quotient 100 / 3. *)
Lemma zero_rate_payment_not_exact_quotient :
  calculate_annuity_payment 100 0 3 = Ok 33.33
  /\ 100 / 3 = 33.333333333333336
  /\ 33.33 <> 100 / 3.
Proof.
  split; [reflexivity|]. split; [reflexivity|].
  apply float_neq. vm_compute. discriminate.
Qed.

(** C5 (as amended): for 120000 at 12 percent over 12 months the monthly
    rate is 0.01 and the payment is 10661.85. *)
Theorem annuity_example_value :
  12 / 100 / 12 = 0.01
  /\ calculate_annuity_payment 120000 12 12 = Ok 10661.85.
Proof. split; reflexivity. Qed.

(** C5 as stated fails: the value returned is 14 cents below 10661.99. *)
Lemma annuity_example_not_10661_99 :
  exists p, calculate_annuity_payment 120000 12 12 = Ok p
            /\ p <> 10661.99
            /\ (0.13 <? 10661.99 - p) = true.
Proof.
  exists 10661.85. split; [reflexivity|]. split; [|reflexivity].
  apply float_neq. vm_compute. discriminate.
Qed.

(** The exact value of the formula on the example agrees: it lies
    between 10661.85 and 10661.86. *)
Lemma annuity_example_exact :
  (Qle_bool (1066185 # 100) (Exact.annuity 120000 (1 # 100) 12)
   && Qle_bool (Exact.annuity 120000 (1 # 100) 12) (1066186 # 100))%bool = true.
Proof. vm_compute. reflexivity. Qed.

(** With a non-zero monthly rate, the result is that of lines 61 and 62
    on the value [**] returns. *)
Lemma calculate_annuity_payment_power
    (amount annual_rate_percent : float) (term_months : Z) (p : float) :
  (annual_rate_percent / 100 / 12 =? 0) = false ->
  py_pow (1 + annual_rate_percent / 100 / 12) term_months = Ok p ->
  calculate_annuity_payment amount annual_rate_percent term_months
  = annuity_from_power amount (annual_rate_percent / 100 / 12) p.
Proof.
  intros Hr Hp. unfold calculate_annuity_payment, annuity_from_power.
  rewrite Hr, Hp. reflexivity.
Qed.

(** The last bits of the power do not decide the example: any double
    within 8 units in the last place of the product-computed 1.01 ** 12
    gives the same payment, so the value holds for libm's [pow] as well. *)
Lemma annuity_example_power_rounding :
  py_pow (1 + 12 / 100 / 12) 12 = Ok 1.1268250301319698
  /\ forallb (fun p => match annuity_from_power 120000 (12 / 100 / 12) p with
                       | Ok v => Leibniz.eqb v 10661.85
                       | Raise _ => false
                       end)
             (neighbours 8 1.1268250301319698) = true.
Proof. split; vm_compute; reflexivity. Qed.

(** Nor do they decide the failing input of C1: within 2 units in the
    last place of the power, the payment stays below 76. *)
Lemma annuity_tiny_rate_power_rounding :
  py_pow (1 + 2e-13 / 100 / 12) 12 = Ok 1.0000000000000027
  /\ forallb (fun p => match annuity_from_power 1000 (2e-13 / 100 / 12) p with
                       | Ok v => v <? 76
                       | Raise _ => false
                       end)
             (neighbours 2 1.0000000000000027) = true.
Proof. split; vm_compute; reflexivity. Qed.

(** C6, the zero-rate half: the branch for a zero rate contains no
    power and divides by [term_months] only. *)
Lemma zero_rate_divides_by_term_only (amount : float) (term_months : Z) (n : float) :
  float_of_int term_months = Ok n ->
  calculate_annuity_payment amount 0 term_months = Raise ZeroDivisionError
  <-> (n =? 0) = true.
Proof.
  intros Hn. rewrite zero_rate_branch, Hn. cbn [bind]. unfold py_truediv.
  destruct (n =? 0); cbn [bind]; split; intros H; try reflexivity; discriminate H.
Qed.

(** C6 at the failing input: the annual rate 1e-15 is positive and its
    monthly rate is not zero, so the positive-rate branch is taken; there
    [1 + monthly_rate] rounds to [1], the denominator is [0] for every
    term, and the division raises whatever the amount. *)
Theorem tiny_rate_divides_by_zero (amount : float) (term_months : Z) :
  (0 <? 1e-15) = true
  /\ (1e-15 / 100 / 12 =? 0) = false
  /\ annuity_denominator (1e-15 / 100 / 12) term_months = Ok 0
  /\ calculate_annuity_payment amount 1e-15 term_months = Raise ZeroDivisionError.
Proof.
  split; [reflexivity|]. split; [reflexivity|].
  assert (E : 1 + 1e-15 / 100 / 12 = 1) by reflexivity.
  unfold annuity_denominator, calculate_annuity_payment.
  replace (1e-15 / 100 / 12 =? 0) with false by reflexivity.
  rewrite E, py_pow_one. cbn [bind]. split; reflexivity.
Qed.

(** C1 at the failing input: for 1000 over 12 months at the positive
    annual rate 2e-13 the function returns 62.55, where the formula is
    worth 83.33; twelve payments of 62.55 leave more than 249 of the 1000
    unpaid. *)
Theorem annuity_tiny_rate_leaves_balance :
  (0 <? 2e-13) = true
  /\ calculate_annuity_payment 1000 2e-13 12 = Ok 62.55
  /\ (249 <? balance_after 12 1000 (2e-13 / 100 / 12) 62.55) = true
  /\ (Qle_bool (8333 # 100)
        (Exact.annuity 1000 (Exact.float_value (2e-13 / 100 / 12)) 12)
      && Qle_bool (249 # 1)
           (Exact.balance_after 12 1000 (Exact.float_value (2e-13 / 100 / 12))
                                (Exact.float_value 62.55)))%bool = true.
Proof.
  split; [reflexivity|]. split; [reflexivity|]. split; [reflexivity|].
  vm_compute. reflexivity.
Qed.

(** On the example of the specification the same check succeeds: twelve
    payments of 10661.85 leave six cents. *)
Lemma annuity_example_balance :
  (abs (balance_after 12 120000 0.01 10661.85) <? 0.06) = true.
Proof. reflexivity. Qed.

End AnnuityFacts.

(* ================================================================== *)
(** * The bank demo: schedule and settlement *)
(* ================================================================== *)

Module BankFacts.
Import Py Bank BankSamples PyFacts.

Section WithDateTime.
Context {DT : DateTimeLib}.

(** ** The loop of [generate_payment_schedule] *)

Lemma step_dates_ok (start_date n : Z) :
  MINORDINAL <= start_date -> in_calendar start_date n ->
  (td <- timedelta (30 * n) ;; datetime_add start_date td)
  = Ok (start_date + 30 * n).
Proof.
  unfold in_calendar, timedelta, datetime_add, MINORDINAL, MAXORDINAL,
    TIMEDELTA_MAX_DAYS.
  intros Hs [Hlo Hhi].
  replace (Z.abs (30 * n) <=? 999999999) with true by (symmetry; apply Z.leb_le; lia).
  cbn [bind].
  replace (1 <=? start_date + 30 * n) with true by (symmetry; apply Z.leb_le; lia).
  replace (start_date + 30 * n <=? 3652059) with true by (symmetry; apply Z.leb_le; lia).
  reflexivity.
Qed.

Lemma schedule_loop_ok (start_date loan_id : Z) (amt : float) (ns : list Z) :
  MINORDINAL <= start_date ->
  Forall (in_calendar start_date) ns ->
  forall db,
    schedule_loop start_date loan_id amt ns db
    = Ok {| loans := loans db;
            loans_seq := loans_seq db;
            payments := payments db
              ++ schedule_entries start_date loan_id amt (payments_seq db) ns;
            payments_seq := payments_seq db + Z.of_nat (List.length ns) |}.
Proof.
  intros Hs Hns. induction Hns as [|n rest Hn Hrest IH]; intros db.
  - cbn [schedule_loop schedule_entries List.length]. destruct db; cbn.
    rewrite app_nil_r, Z.add_0_r. reflexivity.
  - cbn [schedule_loop schedule_entries].
    pose proof (step_dates_ok start_date n Hs Hn) as E.
    destruct (timedelta (30 * n)) as [td|e]; cbn [bind] in E |- *;
      [|discriminate E].
    rewrite E. cbn [bind]. rewrite IH. cbn [loans loans_seq payments payments_seq insert_payment].
    rewrite <- app_assoc. cbn [app List.length].
    do 2 f_equal. lia.
Qed.

(** A step that leaves the calendar raises, whatever was inserted before. *)
Lemma schedule_loop_overflow (start_date loan_id : Z) (amt : float) (n : Z)
    (rest : list Z) (db : DB) :
  MAXORDINAL < start_date + 30 * n ->
  schedule_loop start_date loan_id amt (n :: rest) db = Raise OverflowError.
Proof.
  intros H. cbn [schedule_loop]. unfold timedelta, datetime_add.
  destruct (Z.abs (30 * n) <=? TIMEDELTA_MAX_DAYS); cbn [bind]; [|reflexivity].
  replace (start_date + 30 * n <=? MAXORDINAL) with false
    by (symmetry; apply Z.leb_gt; exact H).
  rewrite andb_false_r. reflexivity.
Qed.

(** A loop with a due day after 9999-12-31 among its numbers raises. *)
Lemma schedule_loop_raises (start_date loan_id : Z) (amt : float) (ns : list Z) :
  MINORDINAL <= start_date ->
  Forall (fun n => 0 <= n) ns ->
  Exists (fun n => MAXORDINAL < start_date + 30 * n) ns ->
  forall db, schedule_loop start_date loan_id amt ns db = Raise OverflowError.
Proof.
  intros Hs Hpos Hex. induction ns as [|n rest IH]; intros db.
  - inversion Hex.
  - inversion Hpos as [|? ? Hn Hrest]; subst.
    destruct (Z_lt_le_dec MAXORDINAL (start_date + 30 * n)) as [Hover|Hin].
    + now apply schedule_loop_overflow.
    + cbn [schedule_loop].
      pose proof (step_dates_ok start_date n Hs (conj Hn Hin)) as E.
      destruct (timedelta (30 * n)) as [td|e]; cbn [bind] in E |- *;
        [|discriminate E].
      rewrite E. cbn [bind]. apply IH; [assumption|].
      inversion Hex as [? ? Hbad|? ? Hbad]; subst; [lia|assumption].
Qed.

(** ** What the inserted rows hold *)

Lemma schedule_entries_length start_date loan_id amt seq ns :
  List.length (schedule_entries start_date loan_id amt seq ns) = List.length ns.
Proof.
  revert seq. induction ns as [|n rest IH]; intros seq; cbn; [reflexivity|].
  now rewrite IH.
Qed.

Lemma schedule_entries_numbers start_date loan_id amt seq ns :
  map p_payment_number (schedule_entries start_date loan_id amt seq ns) = ns.
Proof.
  revert seq. induction ns as [|n rest IH]; intros seq; cbn; [reflexivity|].
  now rewrite IH.
Qed.

Lemma schedule_entries_due_dates start_date loan_id amt seq ns :
  map p_due_date (schedule_entries start_date loan_id amt seq ns)
  = map strftime (map (fun n => start_date + 30 * n) ns).
Proof.
  revert seq. induction ns as [|n rest IH]; intros seq; cbn; [reflexivity|].
  now rewrite IH.
Qed.

Lemma schedule_entries_fields start_date loan_id amt seq ns :
  Forall (fun p => p_loan_id p = loan_id /\ p_amount p = amt
                   /\ p_paid p = 0 /\ p_payment_date p = None)
         (schedule_entries start_date loan_id amt seq ns).
Proof.
  revert seq. induction ns as [|n rest IH]; intros seq; cbn; constructor.
  - cbn. repeat split.
  - apply IH.
Qed.

Lemma schedule_entries_ids start_date loan_id amt seq ns :
  map p_id (schedule_entries start_date loan_id amt seq ns)
  = map (fun k => seq + 1 + Z.of_nat k) (List.seq 0 (List.length ns)).
Proof.
  revert seq. induction ns as [|n rest IH]; intros seq; cbn [schedule_entries map List.length List.seq].
  - reflexivity.
  - rewrite IH, <- seq_shift, map_map. f_equal; [cbn; lia|].
    apply map_ext. intros k. lia.
Qed.

Lemma schedule_entries_fresh start_date loan_id amt seq ns :
  Forall (fun p => seq < p_id p <= seq + Z.of_nat (List.length ns))
         (schedule_entries start_date loan_id amt seq ns).
Proof.
  apply Forall_forall. intros p Hp.
  apply (in_map p_id) in Hp. rewrite schedule_entries_ids in Hp.
  apply in_map_iff in Hp. destruct Hp as (k & <- & Hk).
  apply in_seq in Hk. lia.
Qed.

Lemma due_days_nth (start_date term_months : Z) (k : nat) :
  (k < Z.to_nat term_months)%nat ->
  nth k (due_days start_date term_months) 0
  = start_date + 30 * (Z.of_nat k + 1).
Proof.
  intros Hk. unfold due_days.
  set (f := fun n => start_date + 30 * n).
  transitivity (nth k (map f (range 1 (term_months + 1))) (f 0)).
  - apply nth_indep. rewrite length_map, range_length. lia.
  - rewrite map_nth, range_nth by lia. unfold f. lia.
Qed.

Lemma step_sorted (f : nat -> Z) (m a : nat) :
  (forall i j, (i < j)%nat -> f i < f j) ->
  StronglySorted Z.lt (map f (List.seq a m)).
Proof.
  intros Hf. revert a. induction m as [|m IH]; intros a; cbn; constructor.
  - apply IH.
  - apply Forall_forall. intros y Hy. apply in_map_iff in Hy.
    destruct Hy as (j & <- & Hj). apply in_seq in Hj. apply Hf. lia.
Qed.

Lemma due_days_increasing (start_date term_months : Z) :
  StronglySorted Z.lt (due_days start_date term_months).
Proof.
  unfold due_days, range. rewrite map_map. apply step_sorted. intros; lia.
Qed.

(** ** [generate_payment_schedule] on a run that completes *)

Lemma generate_payment_schedule_ok
    (db : DB) (loan_id : Z) (row : Loan) (start_date : Z) (amt : float) :
  fetch_loan db loan_id = Some row ->
  calculate_annuity_payment (l_amount row) (l_interest_rate row * 100)%float
                            (l_term_months row) = Ok amt ->
  strptime (l_start_date row) = Some start_date ->
  MINORDINAL <= start_date ->
  start_date + 30 * l_term_months row <= MAXORDINAL ->
  generate_payment_schedule db loan_id
  = Ok {| loans := loans db;
          loans_seq := loans_seq db;
          payments :=
            filter (fun p => negb (p_loan_id p =? loan_id)) (payments db)
            ++ schedule_entries start_date loan_id amt (payments_seq db)
                 (range 1 (l_term_months row + 1));
          payments_seq :=
            payments_seq db + Z.of_nat (Z.to_nat (l_term_months row)) |}.
Proof.
  intros Hrow Hamt Hparse Hlo Hhi. unfold generate_payment_schedule.
  rewrite Hrow, Hamt. cbn [bind]. rewrite Hparse. cbn [bind].
  rewrite schedule_loop_ok; [|assumption|].
  - cbn [delete_payments loans loans_seq payments payments_seq].
    rewrite range_length. do 3 f_equal. lia.
  - apply Forall_forall. intros n Hn. apply range_In in Hn.
    unfold in_calendar, MINORDINAL in *. lia.
Qed.

(** A stored loan whose last due day is after 9999-12-31 gets no
    schedule: the call raises. *)
Lemma generate_payment_schedule_overflow
    (db : DB) (loan_id : Z) (row : Loan) (start_date : Z) (amt : float) :
  fetch_loan db loan_id = Some row ->
  calculate_annuity_payment (l_amount row) (l_interest_rate row * 100)%float
                            (l_term_months row) = Ok amt ->
  strptime (l_start_date row) = Some start_date ->
  MINORDINAL <= start_date ->
  0 < l_term_months row ->
  MAXORDINAL < start_date + 30 * l_term_months row ->
  generate_payment_schedule db loan_id = Raise OverflowError.
Proof.
  intros Hrow Hamt Hparse Hlo Hterm Hover. unfold generate_payment_schedule.
  rewrite Hrow, Hamt. cbn [bind]. rewrite Hparse. cbn [bind].
  apply schedule_loop_raises; [assumption| |].
  - apply Forall_forall. intros n Hn. apply range_In in Hn. lia.
  - apply Exists_exists. exists (l_term_months row).
    split; [apply range_In; lia|assumption].
Qed.

(** C2 (as amended): for a stored loan with a positive [term_months], a
    start date that parses to a day from which the last due day
    [start_date + 30 * term_months] is still in the calendar (at most
    9999-12-31), and a payment amount that [calculate_annuity_payment]
    returns, [generate_payment_schedule] inserts exactly [term_months]
    rows after the surviving ones: numbered 1..term_months, due 30 days
    apart from the start date (hence strictly increasing), all with the
    computed amount, all unpaid. *)
Theorem generate_payment_schedule_inserts_term_entries
    (db : DB) (loan_id : Z) (row : Loan) (start_date : Z) (amt : float) :
  fetch_loan db loan_id = Some row ->
  0 < l_term_months row ->
  strptime (l_start_date row) = Some start_date ->
  MINORDINAL <= start_date ->
  start_date + 30 * l_term_months row <= MAXORDINAL ->
  calculate_annuity_payment (l_amount row) (l_interest_rate row * 100)%float
                            (l_term_months row) = Ok amt ->
  exists new : list Payment,
    generate_payment_schedule db loan_id
    = Ok {| loans := loans db;
            loans_seq := loans_seq db;
            payments :=
              filter (fun p => negb (p_loan_id p =? loan_id)) (payments db) ++ new;
            payments_seq := payments_seq db + l_term_months row |}
    /\ List.length new = Z.to_nat (l_term_months row)
    /\ map p_payment_number new = range 1 (l_term_months row + 1)
    /\ map p_due_date new
       = map strftime (due_days start_date (l_term_months row))
    /\ (forall k, (k < Z.to_nat (l_term_months row))%nat ->
          nth k (due_days start_date (l_term_months row)) 0
          = start_date + 30 * (Z.of_nat k + 1))
    /\ StronglySorted Z.lt (due_days start_date (l_term_months row))
    /\ Forall (fun p => p_loan_id p = loan_id /\ p_amount p = amt
                        /\ p_paid p = 0 /\ p_payment_date p = None) new.
Proof.
  intros Hrow Hterm Hparse Hlo Hhi Hamt.
  exists (schedule_entries start_date loan_id amt (payments_seq db)
            (range 1 (l_term_months row + 1))).
  split.
  { rewrite (generate_payment_schedule_ok db loan_id row start_date amt)
      by assumption.
    do 2 f_equal. lia. }
  split.
  { rewrite schedule_entries_length, range_length. f_equal. lia. }
  split; [apply schedule_entries_numbers|].
  split; [apply schedule_entries_due_dates|].
  split; [intros k Hk; now apply due_days_nth|].
  split; [apply due_days_increasing|].
  apply schedule_entries_fields.
Qed.

(** ** The frame of [generate_payment_schedule] *)

Lemma filter_negb_filter {A : Type} (f : A -> bool) (l : list A) :
  filter f (filter (fun x => negb (f x)) l) = [].
Proof.
  induction l as [|x l IH]; cbn; [reflexivity|].
  destruct (f x) eqn:E; cbn; [exact IH|]. now rewrite E.
Qed.

Lemma filter_all {A : Type} (f : A -> bool) (l : list A) :
  Forall (fun x => f x = true) l -> filter f l = l.
Proof.
  induction 1 as [|x l Hx _ IH]; cbn; [reflexivity|]. now rewrite Hx, IH.
Qed.

Lemma filter_none {A : Type} (f : A -> bool) (l : list A) :
  Forall (fun x => f x = false) l -> filter f l = [].
Proof.
  induction 1 as [|x l Hx _ IH]; cbn; [reflexivity|]. now rewrite Hx, IH.
Qed.

Lemma filter_idem {A : Type} (f : A -> bool) (l : list A) :
  filter f (filter f l) = filter f l.
Proof.
  apply filter_all. apply Forall_forall. intros x Hx.
  now apply filter_In in Hx.
Qed.

(** C7, amended: not for every loan id, but for the id of a stored loan
    whose schedule generation runs to completion (the payment amount is
    computed, the start date parses to a day of the calendar, the due
    days stay in the calendar), in a table whose ids do not exceed the
    AUTOINCREMENT sequence: the rows of the loan are deleted and the new
    ones inserted after the survivors; afterwards the rows of that loan
    are exactly the newly generated ones, none of the rows stored for it
    before is left, the rows of every other loan are the same as before,
    and the [loans] table is untouched. *)
Theorem generate_payment_schedule_replaces_schedule
    (db : DB) (loan_id : Z) (row : Loan) (start_date : Z) (amt : float) :
  fetch_loan db loan_id = Some row ->
  calculate_annuity_payment (l_amount row) (l_interest_rate row * 100)%float
                            (l_term_months row) = Ok amt ->
  strptime (l_start_date row) = Some start_date ->
  MINORDINAL <= start_date ->
  start_date + 30 * l_term_months row <= MAXORDINAL ->
  Forall (fun p => p_id p <= payments_seq db) (payments db) ->
  exists (db' : DB) (new : list Payment),
    generate_payment_schedule db loan_id = Ok db'
    /\ new = schedule_entries start_date loan_id amt (payments_seq db)
               (range 1 (l_term_months row + 1))
    /\ payments db'
       = filter (fun p => negb (p_loan_id p =? loan_id)) (payments db) ++ new
    /\ filter (fun p => p_loan_id p =? loan_id) (payments db') = new
    /\ Forall (fun p => payments_seq db < p_id p) new
    /\ (forall p, In p (payments db) -> p_loan_id p = loan_id ->
                  ~ In p (payments db'))
    /\ filter (fun p => negb (p_loan_id p =? loan_id)) (payments db')
       = filter (fun p => negb (p_loan_id p =? loan_id)) (payments db)
    /\ loans db' = loans db.
Proof.
  intros Hrow Hamt Hparse Hlo Hhi Hseq.
  set (new := schedule_entries start_date loan_id amt (payments_seq db)
                (range 1 (l_term_months row + 1))).
  assert (Hmine : Forall (fun p => (p_loan_id p =? loan_id) = true) new).
  { eapply Forall_impl; [|apply schedule_entries_fields].
    cbn. intros p (-> & _). apply Z.eqb_refl. }
  assert (Hfresh : Forall (fun p => payments_seq db < p_id p) new).
  { eapply Forall_impl; [|apply schedule_entries_fresh]. cbn. intros p Hp. lia. }
  eexists. exists new. split.
  { apply generate_payment_schedule_ok; eassumption. }
  cbn [payments loans]. fold new.
  split; [reflexivity|]. split; [reflexivity|].
  split.
  { rewrite filter_app, filter_negb_filter, (filter_all _ new Hmine).
    reflexivity. }
  split; [exact Hfresh|].
  split.
  { intros p Hp Hl Hin. apply in_app_or in Hin. destruct Hin as [Hin|Hin].
    - apply filter_In in Hin. destruct Hin as [_ Hn].
      rewrite Hl, Z.eqb_refl in Hn. discriminate Hn.
    - rewrite Forall_forall in Hfresh, Hseq.
      specialize (Hfresh p Hin). specialize (Hseq p Hp). lia. }
  split; [|reflexivity].
  rewrite filter_app, filter_idem.
  rewrite (filter_none _ new); [apply app_nil_r|].
  eapply Forall_impl; [|exact Hmine]. cbn. now intros p ->.
Qed.

End WithDateTime.

Lemma generate_payment_schedule_inserts_witness :
  exists new : list Payment,
    generate_payment_schedule (DT := iso_datetime) db_2024 1
    = Ok {| loans := [loan_2024]; loans_seq := 1;
            payments := stale_payment 2 7 :: new; payments_seq := 6 |}
    /\ List.length new = 3%nat
    /\ map p_payment_number new = [1; 2; 3]
    /\ map p_due_date new = ["2024-03-01"; "2024-03-31"; "2024-04-30"]%string.
Proof.
  destruct (generate_payment_schedule_inserts_term_entries
              (DT := iso_datetime) db_2024 1 loan_2024 738916 40802.65%float)
    as (new & H1 & H2 & H3 & H4 & _);
    [reflexivity | reflexivity | reflexivity | discriminate | discriminate
    | reflexivity | ].
  exists new. repeat split; assumption.
Defined.

(** C2 as stated fails: a loan of one month starting on 9999-12-31 has a
    positive term and a start date that parses, and the call raises
    [OverflowError] at the first due date instead of inserting a row. *)
Lemma generate_payment_schedule_leaves_calendar :
  0 < l_term_months loan_9999
  /\ strptime (DateTimeLib := iso_datetime) (l_start_date loan_9999)
     = Some MAXORDINAL
  /\ generate_payment_schedule (DT := iso_datetime) db_9999 1
     = Raise OverflowError.
Proof. repeat split. Qed.

(** C7 as stated fails, since the DELETE comes after the lookup of the
    loan and after the computation of the amount.  For the id 7, under
    which no loan is stored, the call returns at once and the schedule
    row stored for loan 7 is still there; for a stored loan at the rate
    1e-15 the computation of the amount raises, and the call ends before
    anything is deleted. *)
Lemma generate_payment_schedule_keeps_old_schedule :
  fetch_loan db_2024 7 = None
  /\ generate_payment_schedule (DT := iso_datetime) db_2024 7 = Ok db_2024
  /\ filter (fun p => p_loan_id p =? 7) (payments db_2024) = [stale_payment 2 7]
  /\ fetch_loan db_tiny_rate 1 <> None
  /\ filter (fun p => p_loan_id p =? 1) (payments db_tiny_rate)
     = [stale_payment 1 1]
  /\ generate_payment_schedule (DT := iso_datetime) db_tiny_rate 1
     = Raise ZeroDivisionError.
Proof. repeat split. discriminate. Qed.

Lemma generate_payment_schedule_replaces_witness :
  exists db' : DB,
    generate_payment_schedule (DT := iso_datetime) db_2024 1 = Ok db'
    /\ map p_id (payments db') = [2; 4; 5; 6]
    /\ map p_loan_id (payments db') = [7; 1; 1; 1]
    /\ loans db' = loans db_2024.
Proof.
  destruct (generate_payment_schedule_replaces_schedule
              (DT := iso_datetime) db_2024 1 loan_2024 738916 40802.65%float)
    as (db' & new & H1 & H2 & H3 & _ & _ & _ & _ & H8);
    [reflexivity | reflexivity | reflexivity | discriminate | discriminate
    | repeat constructor; discriminate | ].
  exists db'. split; [exact H1|]. rewrite H3, H2. repeat split. exact H8.
Defined.

(** The calendar is also left from the menu: a loan of 100000 months
    taken on 2024-01-31 has its last due days after the year 9999. *)
Lemma create_loan_long_term_raises :
  create_loan (DT := iso_datetime) "2024-01-31" empty_db 1 1000 0 100000
  = Raise OverflowError.
Proof.
  unfold create_loan.
  apply (generate_payment_schedule_overflow (DT := iso_datetime) _ _
           {| l_id := 1; l_client_id := 1; l_amount := 1000;
              l_interest_rate := 0; l_term_months := 100000;
              l_start_date := "2024-01-31"; l_status := STATUS_OPEN |}
           738916 0.01%float);
    [reflexivity | reflexivity | reflexivity | discriminate | reflexivity
    | reflexivity].
Qed.

(** The same defect seen from the menu: a loan entered with the rate
    1e-15 percent is stored and its schedule cannot be generated. *)
Lemma create_loan_tiny_rate_raises :
  create_loan (DT := iso_datetime) "2024-01-31" empty_db 1 1000 1e-15 12
  = Raise ZeroDivisionError.
Proof. reflexivity. Qed.

(** ** [pay_payment] *)

Lemma mark_paid_id (d : string) (pid : Z) (p : Payment) :
  p_id (mark_paid d pid p) = p_id p.
Proof. unfold mark_paid. now destruct (p_id p =? pid). Qed.

Lemma mark_paid_loan (d : string) (pid : Z) (p : Payment) :
  p_loan_id (mark_paid d pid p) = p_loan_id p.
Proof. unfold mark_paid. now destruct (p_id p =? pid). Qed.

Lemma mark_paid_other (d : string) (pid : Z) (p : Payment) :
  p_id p <> pid -> mark_paid d pid p = p.
Proof.
  intros H. unfold mark_paid. apply Z.eqb_neq in H. now rewrite H.
Qed.

Lemma mark_paid_hit (d : string) (pid : Z) (p : Payment) :
  p_id p = pid -> p_paid (mark_paid d pid p) = 1.
Proof.
  intros H. unfold mark_paid. apply Z.eqb_eq in H. now rewrite H.
Qed.

Lemma map_mark_paid_ids (d : string) (pid : Z) (ps : list Payment) :
  map p_id (map (mark_paid d pid) ps) = map p_id ps.
Proof.
  rewrite map_map. apply map_ext. intros p. apply mark_paid_id.
Qed.

Lemma loan_of_payment_marked (d : string) (pid : Z) (ps : list Payment) :
  loan_of_payment (map (mark_paid d pid) ps) pid = loan_of_payment ps pid.
Proof.
  unfold loan_of_payment. induction ps as [|p ps IH]; cbn [map find]; [reflexivity|].
  rewrite mark_paid_id. destruct (p_id p =? pid); [|exact IH].
  cbn [option_map]. now rewrite mark_paid_loan.
Qed.

(** With unique ids the scalar subquery finds the row itself. *)
Lemma loan_of_payment_unique (ps : list Payment) (pay : Payment) :
  NoDup (map p_id ps) -> In pay ps ->
  loan_of_payment ps (p_id pay) = Some (p_loan_id pay).
Proof.
  unfold loan_of_payment. induction ps as [|p ps IH]; intros Hnd Hin; [destruct Hin|].
  cbn [map] in Hnd. inversion Hnd as [|? ? Hnotin Hnd']; subst.
  cbn [find]. destruct Hin as [->|Hin].
  - now rewrite Z.eqb_refl.
  - destruct (Z.eqb_spec (p_id p) (p_id pay)) as [E|_].
    + exfalso. apply Hnotin. rewrite E. now apply in_map.
    + now apply IH.
Qed.

Lemma count_unpaid_zero (ps : list Payment) (lid : Z) :
  (count_unpaid ps (Some lid) =? 0) = true
  <-> filter (fun p => (p_loan_id p =? lid) && (p_paid p =? 0)) ps = [].
Proof.
  unfold count_unpaid. cbn [eq_scalar].
  destruct (filter _ ps) as [|x l]; cbn [List.length]; split; intros H;
    reflexivity || discriminate H.
Qed.

(** C3: for a loan of the table and a payment row that belongs to it
    (payment ids being unique, as the primary key makes them),
    [pay_payment] marks the row paid, leaves the rows with another id as
    they were, and then: when no unpaid row of that loan remains, the
    loan's status becomes the repaid one; when some remain, the [loans]
    table is left unchanged. *)
Theorem pay_payment_settles_loan
    (now : string) (db : DB) (loan : Loan) (pay : Payment) :
  NoDup (map p_id (payments db)) ->
  In loan (loans db) ->
  In pay (payments db) ->
  p_loan_id pay = l_id loan ->
  let db' := pay_payment now db (p_id pay) in
  let unpaid_left :=
    filter (fun p => (p_loan_id p =? l_id loan) && (p_paid p =? 0)) (payments db') in
  In (mark_paid now (p_id pay) pay) (payments db')
  /\ (forall p, In p (payments db') -> p_id p = p_id pay -> p_paid p = 1)
  /\ (forall p, In p (payments db) -> p_id p <> p_id pay -> In p (payments db'))
  /\ (unpaid_left = [] ->
      loans db' = map (set_repaid (Some (l_id loan))) (loans db)
      /\ In (set_repaid (Some (l_id loan)) loan) (loans db')
      /\ l_status (set_repaid (Some (l_id loan)) loan) = STATUS_REPAID)
  /\ (unpaid_left <> [] -> loans db' = loans db).
Proof.
  intros Hnd Hloan Hpay Hbelongs db' unpaid_left.
  assert (Hparent :
    loan_of_payment (map (mark_paid now (p_id pay)) (payments db)) (p_id pay)
    = Some (l_id loan)).
  { rewrite loan_of_payment_marked, <- Hbelongs.
    now apply loan_of_payment_unique. }
  assert (Hloans : loans db'
    = if count_unpaid (payments db') (Some (l_id loan)) =? 0
      then map (set_repaid (Some (l_id loan))) (loans db) else loans db).
  { unfold db', pay_payment. cbn [loans payments]. now rewrite Hparent. }
  split.
  { unfold db', pay_payment. cbn [payments]. now apply in_map. }
  split.
  { unfold db', pay_payment. cbn [payments]. intros p Hp Hid.
    apply in_map_iff in Hp. destruct Hp as (q & <- & _).
    rewrite mark_paid_id in Hid. now apply mark_paid_hit. }
  split.
  { unfold db', pay_payment. cbn [payments]. intros p Hp Hid.
    rewrite <- (mark_paid_other now (p_id pay) p Hid). now apply in_map. }
  split.
  - intros Hnone. apply count_unpaid_zero in Hnone. rewrite Hnone in Hloans.
    split; [exact Hloans|]. split.
    + rewrite Hloans. now apply in_map.
    + unfold set_repaid. cbn [eq_scalar]. now rewrite Z.eqb_refl.
  - intros Hsome. destruct (count_unpaid (payments db') (Some (l_id loan)) =? 0) eqn:E.
    + apply count_unpaid_zero in E. contradiction.
    + exact Hloans.
Qed.

(** Paying the first entry keeps the loan open, paying the second one
    closes it. *)
Lemma pay_payment_settles_witness :
  map l_status (loans (pay_payment "2024-03-01" db_two_months 1)) = [STATUS_OPEN]
  /\ map l_status
       (loans (pay_payment "2024-04-01" (pay_payment "2024-03-01" db_two_months 1) 2))
     = [STATUS_REPAID].
Proof.
  split.
  - destruct (pay_payment_settles_loan "2024-03-01" db_two_months
                (nth 0 (loans db_two_months) loan_2024)
                (nth 0 (payments db_two_months) (stale_payment 0 0)))
      as (_ & _ & _ & _ & H);
      [ repeat constructor; cbn; intuition discriminate
      | now left | now left | reflexivity | ].
    cbn [nth db_two_months payments p_id] in H.
    rewrite H; [reflexivity | discriminate].
  - reflexivity.
Defined.

(** ** The primary keys are kept *)

Lemma wf_empty_db : wf_db empty_db.
Proof. repeat split; constructor. Qed.

Lemma pay_payment_wf (now : string) (db : DB) (payment_id : Z) :
  wf_db db -> wf_db (pay_payment now db payment_id).
Proof.
  intros (H1 & H2 & H3 & H4). unfold wf_db, pay_payment.
  cbn [loans loans_seq payments payments_seq].
  assert (Hid : forall sub ls, map l_id (map (set_repaid sub) ls) = map l_id ls).
  { intros sub ls. rewrite map_map. apply map_ext. intros l.
    unfold set_repaid. now destruct (eq_scalar (l_id l) sub). }
  repeat split.
  - destruct (_ =? 0); [rewrite Hid|]; exact H1.
  - destruct (_ =? 0); [|exact H2].
    apply Forall_forall. intros l Hl. apply in_map_iff in Hl.
    destruct Hl as (l0 & <- & Hl0). rewrite Forall_forall in H2.
    specialize (H2 l0 Hl0). unfold set_repaid.
    now destruct (eq_scalar (l_id l0) _).
  - now rewrite map_mark_paid_ids.
  - apply Forall_forall. intros p Hp. apply in_map_iff in Hp.
    destruct Hp as (p0 & <- & Hp0). rewrite Forall_forall in H4.
    rewrite mark_paid_id. now apply H4.
Qed.

Section WithDateTime.
Context {DT : DateTimeLib}.

Lemma insert_payment_wf (db : DB) (loan_id n : Z) (due : string) (amt : float) :
  wf_db db -> wf_db (insert_payment db loan_id n due amt).
Proof.
  intros (H1 & H2 & H3 & H4). unfold wf_db, insert_payment.
  cbn [loans loans_seq payments payments_seq].
  repeat split; try assumption.
  - rewrite map_app. cbn [map p_id].
    apply NoDup_app; [exact H3 | repeat constructor; intros [] | ].
    intros x Hx [<-|[]]. apply in_map_iff in Hx. destruct Hx as (p & Hp & Hin).
    rewrite Forall_forall in H4. specialize (H4 p Hin). lia.
  - apply Forall_app. split.
    + eapply Forall_impl; [|exact H4]. cbn. intros p Hp. lia.
    + repeat constructor. cbn. lia.
Qed.

Lemma delete_payments_wf (db : DB) (loan_id : Z) :
  wf_db db -> wf_db (delete_payments db loan_id).
Proof.
  intros (H1 & H2 & H3 & H4). unfold wf_db, delete_payments.
  cbn [loans loans_seq payments payments_seq].
  repeat split; try assumption.
  - clear H4. induction (payments db) as [|p ps IH]; cbn; [constructor|].
    cbn in H3. inversion H3 as [|? ? Hn Hnd]; subst.
    destruct (negb _); [|now apply IH].
    cbn. constructor; [|now apply IH].
    intros Hin. apply Hn. apply in_map_iff in Hin.
    destruct Hin as (q & Hq & Hin). apply filter_In in Hin.
    rewrite <- Hq. apply in_map. tauto.
  - apply Forall_forall. intros p Hp. apply filter_In in Hp.
    rewrite Forall_forall in H4. now apply H4.
Qed.

Lemma schedule_loop_wf (start_date loan_id : Z) (amt : float) (ns : list Z) :
  forall db db',
    wf_db db -> schedule_loop start_date loan_id amt ns db = Ok db' -> wf_db db'.
Proof.
  induction ns as [|n rest IH]; intros db db' Hwf H; cbn [schedule_loop] in H.
  - now inversion H; subst.
  - destruct (timedelta (30 * n)) as [td|]; cbn [bind] in H; [|discriminate H].
    destruct (datetime_add start_date td) as [due|]; cbn [bind] in H;
      [|discriminate H].
    eapply IH; [|exact H]. now apply insert_payment_wf.
Qed.

Lemma generate_payment_schedule_wf (db db' : DB) (loan_id : Z) :
  wf_db db -> generate_payment_schedule db loan_id = Ok db' -> wf_db db'.
Proof.
  intros Hwf H. unfold generate_payment_schedule in H.
  destruct (fetch_loan db loan_id) as [row|]; [|now inversion H; subst].
  destruct (calculate_annuity_payment _ _ _) as [amt|]; cbn [bind] in H;
    [|discriminate H].
  destruct (strptime (l_start_date row)) as [d|]; cbn [bind] in H;
    [|discriminate H].
  eapply schedule_loop_wf; [|exact H]. now apply delete_payments_wf.
Qed.

Lemma create_loan_wf (today : string) (db db' : DB)
    (client_id : Z) (amount rate : float) (term_months : Z) :
  wf_db db ->
  create_loan today db client_id amount rate term_months = Ok db' ->
  wf_db db'.
Proof.
  intros (H1 & H2 & H3 & H4) H. unfold create_loan in H.
  eapply generate_payment_schedule_wf; [|exact H].
  unfold wf_db. cbn [loans loans_seq payments payments_seq].
  repeat split; try assumption.
  - rewrite map_app. cbn [map l_id].
    apply NoDup_app; [exact H1 | repeat constructor; intros [] | ].
    intros x Hx [<-|[]]. apply in_map_iff in Hx. destruct Hx as (l & Hl & Hin).
    rewrite Forall_forall in H2. specialize (H2 l Hin). lia.
  - apply Forall_app. split.
    + eapply Forall_impl; [|exact H2]. cbn. intros l Hl. lia.
    + repeat constructor. cbn. lia.
Qed.

End WithDateTime.

End BankFacts.

(* ================================================================== *)
(** * The geodata tool: the query of the [--filter] flag *)
(* ================================================================== *)

Module GeoFacts.
Import Py Geo.

Section WithLibraries.
Variable Row : Type.
Variable load_data : string -> result (DataFrame Row).
Variable has_column : DataFrame Row -> string -> bool.
Variable sqlite : list SqlEvent -> SqlEvent -> result (DataFrame Row).

Abbreviation save_to_db := (Geo.save_to_db Row has_column sqlite).
Abbreviation query_db := (Geo.query_db Row sqlite).
Abbreviation main := (Geo.main Row load_data has_column sqlite).

Lemma queries_app (l1 l2 : list SqlEvent) :
  queries (l1 ++ l2) = queries l1 ++ queries l2.
Proof. unfold queries. apply flat_map_app. Qed.

(** Saving the frame sends no query, however far it gets. *)
Lemma save_to_db_queries (df : DataFrame Row) (p : string) (log : list SqlEvent) :
  queries (snd (save_to_db df p log)) = queries log.
Proof.
  unfold Geo.save_to_db, bindS, send, ret.
  repeat match goal with
         | |- context [sqlite ?l ?e] => destruct (sqlite l e)
         | |- context [if ?b then _ else _] => destruct b
         end;
    cbn [snd]; rewrite ?queries_app; cbn [queries flat_map app];
    rewrite ?app_nil_r; reflexivity.
Qed.

(** [query_db] hands its argument to the database as it is, and never
    raises. *)
Lemma query_db_sends (p q : string) (log : list SqlEvent) :
  snd (query_db p q log) = log ++ [ReadSql p q]
  /\ exists df, fst (query_db p q log) = Ok df.
Proof.
  unfold Geo.query_db, try_or_empty, send.
  destruct (sqlite log (ReadSql p q)); cbn; eauto.
Qed.

(** The queries of a whole run of [main], from an empty log. *)
Lemma main_queries (args : Args) :
  queries (snd (main args [])) = []
  \/ exists f, filter args = Some f /\ f <> EmptyString
               /\ queries (snd (main args []))
                  = [(db args, (FILTER_PREFIX ++ f)%string)].
Proof.
  unfold Geo.main, bindS, lift, ret.
  destruct (load_data (csv args)) as [[|r data]|e]; cbn [snd]; [now left| |now left].
  pose proof (save_to_db_queries (r :: data) (db args) []) as Hs.
  destruct (save_to_db (r :: data) (db args) []) as [[[]|e] log]; cbn [snd] in Hs |- *;
    [|left; exact Hs].
  destruct (filter args) as [[|c f]|] eqn:Ef; cbn [truthy]; cbn [snd];
    [left; exact Hs | | left; exact Hs].
  right. exists (String c f). split; [reflexivity|]. split; [discriminate|].
  destruct (query_db_sends (db args) (FILTER_PREFIX ++ String c f) log) as [Hq [df Hdf]].
  destruct (query_db (db args) (FILTER_PREFIX ++ String c f) log) as [res log'].
  cbn [fst snd] in Hq, Hdf. subst res log'.
  assert (E : queries (log ++ [ReadSql (db args) (FILTER_PREFIX ++ String c f)])
              = [(db args, (FILTER_PREFIX ++ String c f)%string)]).
  { rewrite queries_app, Hs. reflexivity. }
  destruct df; cbn [snd]; exact E.
Qed.

(** C8: for every string [f] given to [--filter], every query sent to the
    database is the text "SELECT * FROM geolocations WHERE " followed by
    [f], character for character, and goes to the database of [--db]; a
    non-empty [f] on a run that loads a non-empty frame and saves it
    without an exception sends exactly that one query.  (An empty [f] is
    false in the [if args.filter] test: no query is sent.) *)
Theorem filter_query_is_concatenation (c d f : string) :
  let args := {| csv := c; db := d; filter := Some f |} in
  let sent := queries (snd (main args [])) in
  (forall p q, In (p, q) sent -> p = d /\ q = (FILTER_PREFIX ++ f)%string)
  /\ (f <> EmptyString ->
      forall data,
        load_data c = Ok data -> data <> [] ->
        fst (save_to_db data d []) = Ok tt ->
        sent = [(d, (FILTER_PREFIX ++ f)%string)])
  /\ FILTER_PREFIX = "SELECT * FROM geolocations WHERE "%string
  /\ String.length (FILTER_PREFIX ++ f) = (33 + String.length f)%nat
  /\ substring 33 (String.length f) (FILTER_PREFIX ++ f) = f.
Proof.
  intros args sent. split; [|split; [|split; [reflexivity|split]]].
  - intros p q Hin. unfold sent in Hin.
    destruct (main_queries args) as [E|(f' & Hf' & _ & E)]; rewrite E in Hin.
    + destruct Hin.
    + cbn [filter args] in Hf'. inversion Hf'; subst f'.
      destruct Hin as [Hin|[]]. inversion Hin. now split.
  - intros Hf data Hload Hdata Hsave. unfold sent, Geo.main, bindS, lift, ret.
    cbn [csv db filter args]. rewrite Hload.
    destruct data as [|r data]; [now destruct Hdata|].
    pose proof (save_to_db_queries (r :: data) d []) as Hs.
    destruct (save_to_db (r :: data) d []) as [res log].
    cbn [fst snd] in Hsave, Hs. subst res.
    destruct f as [|ch f]; [now destruct Hf|]. cbn [truthy].
    destruct (query_db_sends d (FILTER_PREFIX ++ String ch f) log) as [Hq [df Hdf]].
    destruct (query_db d (FILTER_PREFIX ++ String ch f) log) as [res log'].
    cbn [fst snd] in Hq, Hdf. subst res log'.
    assert (E : queries (log ++ [ReadSql d (FILTER_PREFIX ++ String ch f)])
                = [(d, (FILTER_PREFIX ++ String ch f)%string)]).
    { rewrite queries_app, Hs. reflexivity. }
    destruct df; cbn [snd]; exact E.
  - reflexivity.
  - unfold FILTER_PREFIX. cbn [String.append substring].
    induction f as [|ch f IH]; cbn [String.length substring]; [reflexivity|].
    now rewrite IH.
Qed.

End WithLibraries.

(** A run with an injection in the flag: the text reaches the database
    as typed. *)
Lemma filter_query_witness :
  queries
    (snd (Geo.main unit (fun _ => Ok [tt]) (fun _ _ => false) (fun _ _ => Ok [tt])
            {| csv := "geo.csv"; db := "geo.db";
               filter := Some "1=1; DROP TABLE geolocations"%string |} []))
  = [("geo.db",
      "SELECT * FROM geolocations WHERE 1=1; DROP TABLE geolocations")]%string.
Proof.
  destruct (filter_query_is_concatenation unit (fun _ => Ok [tt]) (fun _ _ => false)
              (fun _ _ => Ok [tt]) "geo.csv" "geo.db"
              "1=1; DROP TABLE geolocations") as (_ & H & _).
  apply (H ltac:(discriminate) [tt]); [reflexivity | discriminate | reflexivity].
Defined.

End GeoFacts.

(* ================================================================== *)
(** * The partner tool: the change-history log *)
(* ================================================================== *)

Module PartnerFacts.
Import PartnerApp.

Section WithStr.
Variable float_str : float -> string.
Variable now : nat -> string.

Abbreviation record_changes := (PartnerApp.record_changes now).
Abbreviation changes := (PartnerApp.changes float_str).
Abbreviation update_partner_with_history :=
  (PartnerApp.update_partner_with_history float_str now).

(** The loop appends one row per element whose values differ, in the
    order of the list, and touches nothing else. *)
Lemma record_changes_appends (pid : Z) (user : string)
    (cs : list (string * string * string)) :
  forall (i : nat) (d : DB),
  exists added : list Change,
    change_history (record_changes pid user i cs d) = change_history d ++ added
    /\ partners (record_changes pid user i cs d) = partners d
    /\ map entry_of added = changed cs
    /\ Forall (fun c => ch_partner_id c = pid /\ ch_user c = user) added.
Proof.
  induction cs as [|[[field old_val] new_val] rest IH]; intros i d.
  - exists []. cbn. rewrite app_nil_r. repeat split. constructor.
  - cbn [PartnerApp.record_changes changed List.filter fst snd].
    destruct (String.eqb old_val new_val) eqn:E; cbn [negb].
    + apply IH.
    + destruct (IH (S i) (insert_change d pid field old_val new_val (now i) user))
        as (added & H1 & H2 & H3 & H4).
      eexists (_ :: added). split; [|split; [|split]].
      * rewrite H1. cbn [insert_change change_history].
        rewrite <- app_assoc. reflexivity.
      * rewrite H2. reflexivity.
      * cbn [map entry_of ch_field_name ch_old_value ch_new_value].
        fold (changed rest). now rewrite H3.
      * constructor; [cbn; split; reflexivity | exact H4].
Qed.

Lemma rows_of_field_entries (field : string) (rows : list Change) :
  map entry_of (rows_of_field field rows)
  = List.filter (fun c => String.eqb (fst (fst c)) field) (map entry_of rows).
Proof.
  unfold rows_of_field.
  induction rows as [|c rows IH]; [reflexivity|].
  cbn [List.filter map entry_of fst].
  destruct (String.eqb (ch_field_name c) field); cbn [map]; now rewrite IH.
Qed.

(** With distinct field names, a field has one changed element when its
    values differ and none when they are equal. *)
Lemma changed_of_field (cs : list (string * string * string))
    (field old_val new_val : string) :
  NoDup (map (fun c => fst (fst c)) cs) ->
  In (field, old_val, new_val) cs ->
  List.filter (fun c => String.eqb (fst (fst c)) field) (changed cs)
  = if String.eqb old_val new_val then [] else [(field, old_val, new_val)].
Proof.
  induction cs as [|[[f o] n] rest IH]; intros Hnd Hin; [destruct Hin|].
  cbn [map fst] in Hnd. inversion Hnd as [|? ? Hnotin Hnd']; subst.
  assert (Hrest : forall f' o' n', In (f', o', n') rest -> f' <> f).
  { intros f' o' n' H' ->. apply Hnotin.
    apply (in_map (fun c => fst (fst c))) in H'. exact H'. }
  cbn [changed List.filter fst snd]. destruct Hin as [Heq|Hin].
  - inversion Heq; subst f o n. fold (changed rest).
    assert (Hnone : List.filter (fun c => String.eqb (fst (fst c)) field)
                      (changed rest) = []).
    { clear -Hrest. induction rest as [|[[f' o'] n'] rest IH]; [reflexivity|].
      cbn [changed List.filter fst snd]. fold (changed rest).
      assert (Hne : String.eqb f' field = false).
      { apply String.eqb_neq. eapply Hrest. now left. }
      assert (IH' : List.filter (fun c => String.eqb (fst (fst c)) field)
                      (changed rest) = []).
      { apply IH. intros f2 o2 n2 H2. eapply Hrest. right. exact H2. }
      destruct (negb (String.eqb o' n')); [|exact IH'].
      cbn [List.filter fst]. now rewrite Hne. }
    destruct (String.eqb old_val new_val); cbn [negb]; [exact Hnone|].
    cbn [List.filter fst]. now rewrite String.eqb_refl, Hnone.
  - fold (changed rest).
    assert (Hne : String.eqb f field = false).
    { apply String.eqb_neq. intros E. symmetry in E. revert E.
      eapply Hrest. exact Hin. }
    destruct (negb (String.eqb o n)); [|now apply IH].
    cbn [List.filter fst]. rewrite Hne. now apply IH.
Qed.

Lemma changes_fields (partner old_partner : Partner) :
  map (fun c => fst (fst c)) (changes partner old_partner)
  = ["name"; "email"; "phone"; "company"; "total_sales"; "status"; "category"]%string.
Proof. reflexivity. Qed.

Lemma changes_fields_distinct (partner old_partner : Partner) :
  NoDup (map (fun c => fst (fst c)) (changes partner old_partner)).
Proof.
  rewrite changes_fields.
  repeat (constructor; [cbn; intuition discriminate|]). constructor.
Qed.

(** One element of a list of changes with distinct field names, in the
    rows the loop appends. *)
Lemma logged_of_changes
    (cs : list (string * string * string)) (added : list Change)
    (pid : Z) (user field old_val new_val : string) :
  NoDup (map (fun c => fst (fst c)) cs) ->
  map entry_of added = changed cs ->
  Forall (fun c => ch_partner_id c = pid /\ ch_user c = user) added ->
  In (field, old_val, new_val) cs ->
  logged added pid user field old_val new_val.
Proof.
  intros Hnd H3 H4 Hin.
  pose proof (changed_of_field _ field old_val new_val Hnd Hin) as Hc.
  rewrite <- H3, <- rows_of_field_entries in Hc.
  split.
  - intros Hne. apply String.eqb_neq in Hne. rewrite Hne in Hc.
    destruct (rows_of_field field added) as [|row [|row' rows]] eqn:Er;
      try discriminate Hc.
    exists row. split; [reflexivity|].
    assert (Hrow : In row added).
    { assert (Hr : In row (rows_of_field field added)) by (rewrite Er; now left).
      apply filter_In in Hr. tauto. }
    rewrite Forall_forall in H4. destruct (H4 row Hrow) as [Hp Hu].
    cbn [map] in Hc. inversion Hc as [[Hf Ho Hn]]. repeat split; assumption.
  - intros Heq. apply String.eqb_eq in Heq. rewrite Heq in Hc.
    destruct (rows_of_field field added); [reflexivity|discriminate Hc].
Qed.

(** C9, amended: an update appends to [change_history], for each tracked
    field (name, email, phone, company, total_sales, status, category),
    exactly one row when the value of [partner] differs from the value of
    [old_partner], and no row when the two are equal; the row carries the
    partner's id, the user, the value of [old_partner] as old value and
    the value of [partner] as new value, and no row of another field is
    appended.  The values are compared and stored as text: the strings of
    the string fields, and for [total_sales] the text [str] gives to the
    number, so that whether the sales figure changed is decided on its
    spelling. *)
Theorem update_partner_with_history_logs_changes
    (partner old_partner : Partner) (user : string) (d : DB) :
  exists added : list Change,
    change_history (update_partner_with_history partner old_partner user d)
    = change_history d ++ added
    /\ logged added (id partner) user "name"
         (name old_partner) (name partner)
    /\ logged added (id partner) user "email"
         (email old_partner) (email partner)
    /\ logged added (id partner) user "phone"
         (phone old_partner) (phone partner)
    /\ logged added (id partner) user "company"
         (company old_partner) (company partner)
    /\ logged added (id partner) user "total_sales"
         (float_str (total_sales old_partner)) (float_str (total_sales partner))
    /\ logged added (id partner) user "status"
         (status old_partner) (status partner)
    /\ logged added (id partner) user "category"
         (category old_partner) (category partner)
    /\ (forall row, In row added -> In (ch_field_name row) TRACKED_FIELDS).
Proof.
  destruct (record_changes_appends (id partner) user
              (changes partner old_partner) 0%nat d)
    as (added & H1 & _ & H3 & H4).
  pose proof (changes_fields_distinct partner old_partner) as Hnd.
  exists added. split; [exact H1|].
  repeat (split;
          [apply (logged_of_changes (changes partner old_partner));
           [exact Hnd | exact H3 | exact H4 | cbn; tauto]|]).
  intros row Hrow. apply (in_map entry_of) in Hrow. rewrite H3 in Hrow.
  apply filter_In in Hrow. destruct Hrow as [Hrow _].
  apply (in_map (fun c => fst (fst c))) in Hrow.
  rewrite changes_fields in Hrow. exact Hrow.
Qed.

(** When [str] tells numbers apart, the [total_sales] row is written
    exactly when the number changed. *)
Lemma total_sales_compared (partner old_partner : Partner) :
  (forall x y, float_str x = float_str y -> x = y) ->
  In ("total_sales"%string, float_str (total_sales old_partner),
      float_str (total_sales partner)) (changes partner old_partner)
  /\ (float_str (total_sales old_partner) = float_str (total_sales partner)
      <-> total_sales old_partner = total_sales partner).
Proof.
  intros Hinj. split.
  - cbn. tauto.
  - split; [apply Hinj | now intros ->].
Qed.

End WithStr.

(** An update that changes the e-mail address and the sales figure, and
    nothing else that is tracked: two rows, in the order of [changes]. *)
Lemma update_partner_with_history_sample :
  map entry_of
    (change_history
       (PartnerApp.update_partner_with_history sample_float_str
          (fun _ => "2024-02-01 10:00:00"%string)
          partner_after partner_before "system"
          {| partners := [partner_before]; change_history := [];
             change_history_seq := 0 |}))
  = [ ("email", "anna@old.example", "anna@new.example");
      ("total_sales", "100.0", "250.5") ]%string.
Proof. reflexivity. Qed.

(** The amended C9 on the sample update: one row for the e-mail address
    with the two addresses, one for the sales figure with the two
    spellings, none for the name. *)
Lemma update_partner_with_history_logs_witness :
  exists added : list Change,
    change_history
      (PartnerApp.update_partner_with_history sample_float_str
         (fun _ => "2024-02-01 10:00:00"%string)
         partner_after partner_before "system"
         {| partners := [partner_before]; change_history := [];
            change_history_seq := 0 |})
    = added
    /\ map entry_of (rows_of_field "email" added)
       = [("email", "anna@old.example", "anna@new.example")]%string
    /\ map entry_of (rows_of_field "total_sales" added)
       = [("total_sales", "100.0", "250.5")]%string
    /\ rows_of_field "name" added = []
    /\ List.length added = 2%nat.
Proof.
  destruct (update_partner_with_history_logs_changes sample_float_str
              (fun _ => "2024-02-01 10:00:00"%string)
              partner_after partner_before "system"
              {| partners := [partner_before]; change_history := [];
                 change_history_seq := 0 |})
    as (added & H1 & Hname & Hemail & _ & _ & Hsales & _ & _ & _).
  exists added. split; [exact H1|].
  destruct Hemail as [Hemail _]. destruct Hsales as [Hsales _].
  destruct Hname as [_ Hname].
  destruct (Hemail ltac:(discriminate)) as (re & Er & _ & Eo & En & _).
  destruct (Hsales ltac:(discriminate)) as (rs & Es & _ & So & Sn & _).
  split.
  { rewrite Er. cbn [map]. unfold entry_of. rewrite Eo, En.
    assert (Hf : In re (rows_of_field "email" added)) by (rewrite Er; now left).
    apply filter_In in Hf. destruct Hf as [_ Hf]. apply String.eqb_eq in Hf.
    now rewrite Hf. }
  split.
  { rewrite Es. cbn [map]. unfold entry_of. rewrite So, Sn.
    assert (Hf : In rs (rows_of_field "total_sales" added))
      by (rewrite Es; now left).
    apply filter_In in Hf. destruct Hf as [_ Hf]. apply String.eqb_eq in Hf.
    now rewrite Hf. }
  split; [now apply Hname|].
  etransitivity; [symmetry; exact (f_equal (@List.length Change) H1)|].
  reflexivity.
Defined.

(** C9 as stated fails for the sales figure: 0.0 and -0.0 are equal
    numbers, and an update from the one to the other writes a row, since
    the two are spelled differently. *)
Lemma update_partner_with_history_logs_equal_sales :
  (total_sales partner_zero_sales =? total_sales partner_negzero_sales)%float
  = true
  /\ map entry_of
       (change_history
          (PartnerApp.update_partner_with_history zero_float_str
             (fun _ => "2024-02-01 10:00:00"%string)
             partner_negzero_sales partner_zero_sales "system"
             {| partners := [partner_zero_sales]; change_history := [];
                change_history_seq := 0 |}))
     = [("total_sales", "0.0", "-0.0")]%string.
Proof. split; reflexivity. Qed.

End PartnerFacts.

(* ================================================================== *)
(** * The calculator: the history keeps the last hundred entries *)
(* ================================================================== *)

Module CalculatorFacts.
Import Calculator.

Lemma slice_last_length {A : Type} (k : nat) (l : list A) :
  List.length (slice_last k l) = Nat.min (List.length l) k.
Proof. unfold slice_last. rewrite length_skipn. lia. Qed.

Lemma slice_last_short {A : Type} (k : nat) (l : list A) :
  (List.length l <= k)%nat -> slice_last k l = l.
Proof.
  intros H. unfold slice_last.
  replace (List.length l - k)%nat with O by lia. reflexivity.
Qed.

(** What is cut off is the front of the list. *)
Lemma slice_last_suffix {A : Type} (k : nat) (l : list A) :
  l = firstn (List.length l - k) l ++ slice_last k l.
Proof. unfold slice_last. symmetry. apply firstn_skipn. Qed.

Lemma slice_last_app {A : Type} (k : nat) (l l' : list A) :
  slice_last k (slice_last k l ++ l') = slice_last k (l ++ l').
Proof.
  destruct (Nat.le_gt_cases (List.length l) k) as [Hle|Hgt].
  - now rewrite (slice_last_short k l Hle).
  - unfold slice_last at 1 3.
    rewrite !length_app, slice_last_length.
    replace (Nat.min (List.length l) k + List.length l' - k)%nat
      with (List.length l') by lia.
    unfold slice_last.
    replace (List.length l + List.length l' - k)%nat
      with (List.length l' + (List.length l - k))%nat by lia.
    rewrite <- skipn_skipn. f_equal.
    rewrite skipn_app.
    replace (List.length l - k - List.length l)%nat with O by lia.
    reflexivity.
Qed.

Lemma save_history_history (writable : bool) (self : AdvancedCalculator) :
  history (save_history writable self) = history self.
Proof. unfold save_history. now destruct writable. Qed.

Lemma add_to_history_history
    (now : string) (writable : bool) (e r t : string) (self : AdvancedCalculator) :
  history (add_to_history now writable e r t self)
  = slice_last 100
      (history self ++
       [ {| timestamp := now; expression := e; result := r; type := t |} ]).
Proof.
  unfold add_to_history. rewrite save_history_history. cbn [history].
  destruct (100 <? _)%nat eqn:E; [reflexivity|].
  apply Nat.ltb_ge in E. now rewrite slice_last_short.
Qed.

(** C10: after [add_to_history] the history holds at most 100 entries; it
    is the tail of the old history followed by the new entry, what is
    dropped being the oldest entries; and once 100 entries are reached it
    holds exactly the last 100. *)
Theorem add_to_history_keeps_last_100
    (now : string) (writable : bool) (e r t : string) (self : AdvancedCalculator) :
  let entry := {| timestamp := now; expression := e; result := r; type := t |} in
  let self' := add_to_history now writable e r t self in
  (List.length (history self') <= 100)%nat
  /\ history self' = slice_last 100 (history self ++ [entry])
  /\ (exists dropped,
        history self ++ [entry] = dropped ++ history self'
        /\ List.length dropped = (List.length (history self) + 1 - 100)%nat)
  /\ ((100 <= List.length (history self) + 1)%nat ->
      List.length (history self') = 100%nat)
  /\ ((List.length (history self) + 1 <= 100)%nat ->
      history self' = history self ++ [entry]).
Proof.
  intros entry self'.
  assert (E : history self' = slice_last 100 (history self ++ [entry]))
    by apply add_to_history_history.
  assert (L : List.length (history self ++ [entry])
              = (List.length (history self) + 1)%nat)
    by now rewrite length_app.
  split; [rewrite E, slice_last_length; lia|].
  split; [exact E|]. split; [|split].
  - exists (firstn (List.length (history self ++ [entry]) - 100)
                   (history self ++ [entry])).
    split.
    + rewrite E. apply slice_last_suffix.
    + rewrite length_firstn, L. lia.
  - intros H. rewrite E, slice_last_length, L. lia.
  - intros H. rewrite E. apply slice_last_short. rewrite L. exact H.
Qed.

(** From a history within the bound, any run of additions leaves the 100
    most recently added entries (all of them while there are fewer). *)
Lemma add_all_keeps_most_recent (writable : bool) (es : list Entry) :
  forall self,
    (List.length (history self) <= 100)%nat ->
    history (add_all writable es self) = slice_last 100 (history self ++ es).
Proof.
  induction es as [|e rest IH]; intros self Hlen; cbn [add_all].
  - rewrite app_nil_r. symmetry. now apply slice_last_short.
  - rewrite IH.
    + rewrite add_to_history_history. destruct e as [ts ex re ty].
      cbn [timestamp expression result type].
      rewrite slice_last_app, <- app_assoc. reflexivity.
    + rewrite add_to_history_history, slice_last_length. lia.
Qed.

(** Starting from an empty history and adding 101 entries, the first one
    is gone and the other hundred are kept in order. *)
Lemma add_all_101 (writable : bool) (es : list Entry) (e0 : Entry) (self : AdvancedCalculator) :
  history self = [] -> List.length es = 100%nat ->
  history (add_all writable (e0 :: es) self) = es.
Proof.
  intros H0 Hes. rewrite add_all_keeps_most_recent by (rewrite H0; cbn; lia).
  rewrite H0. cbn [app]. unfold slice_last. cbn [List.length].
  rewrite Hes. reflexivity.
Qed.

End CalculatorFacts.

(* ================================================================== *)
(** * The bank demo: what every reachable state satisfies *)
(* ================================================================== *)

Module LedgerFacts.
Import Py Bank BankLedger PyFacts BankFacts.

(** ** Rows and lists *)

Lemma find_app_last {A : Type} (f : A -> bool) (l : list A) (y : A) :
  (forall x, In x l -> f x = false) ->
  find f (l ++ [y]) = if f y then Some y else None.
Proof.
  induction l as [|x l IH]; intros H; cbn [app find].
  - reflexivity.
  - rewrite (H x) by now left. apply IH. intros z Hz. apply H. now right.
Qed.

Lemma filter_map_swap {A : Type} (f : A -> bool) (g : A -> A) (l : list A) :
  (forall x, f (g x) = f x) ->
  filter f (map g l) = map g (filter f l).
Proof.
  intros H. induction l as [|x l IH]; cbn [map filter]; [reflexivity|].
  rewrite H. destruct (f x); cbn [map]; now rewrite IH.
Qed.

Lemma mark_paid_number (d : string) (pid : Z) (p : Payment) :
  p_payment_number (mark_paid d pid p) = p_payment_number p.
Proof. unfold mark_paid. now destruct (p_id p =? pid). Qed.

Lemma mark_paid_amount (d : string) (pid : Z) (p : Payment) :
  p_amount (mark_paid d pid p) = p_amount p.
Proof. unfold mark_paid. now destruct (p_id p =? pid). Qed.

Lemma mark_paid_due_date (d : string) (pid : Z) (p : Payment) :
  p_due_date (mark_paid d pid p) = p_due_date p.
Proof. unfold mark_paid. now destruct (p_id p =? pid). Qed.

Lemma mark_paid_flag (d : string) (pid : Z) (p : Payment) :
  p_paid (mark_paid d pid p) = if p_id p =? pid then 1 else p_paid p.
Proof. unfold mark_paid. now destruct (p_id p =? pid). Qed.

Lemma mark_paid_twice (d1 d2 : string) (pid : Z) (p : Payment) :
  mark_paid d2 pid (mark_paid d1 pid p) = mark_paid d2 pid p.
Proof.
  unfold mark_paid. destruct (p_id p =? pid) eqn:E; cbn [p_id]; now rewrite E.
Qed.

Lemma set_repaid_null (l : Loan) : set_repaid None l = l.
Proof. reflexivity. Qed.

Lemma set_repaid_id (sub : option Z) (l : Loan) : l_id (set_repaid sub l) = l_id l.
Proof. unfold set_repaid. now destruct (eq_scalar (l_id l) sub). Qed.

Lemma set_repaid_twice (sub : option Z) (l : Loan) :
  set_repaid sub (set_repaid sub l) = set_repaid sub l.
Proof.
  unfold set_repaid. destruct (eq_scalar (l_id l) sub) eqn:E; cbn [l_id]; now rewrite E.
Qed.

Lemma set_repaid_other (lid : Z) (l : Loan) :
  l_id l <> lid -> set_repaid (Some lid) l = l.
Proof.
  intros H. unfold set_repaid. cbn [eq_scalar]. apply Z.eqb_neq in H. now rewrite H.
Qed.

Lemma map_set_repaid_ids (sub : option Z) (ls : list Loan) :
  map l_id (map (set_repaid sub) ls) = map l_id ls.
Proof. rewrite map_map. apply map_ext. intros l. apply set_repaid_id. Qed.

Lemma schedule_of_pay_payment (d : string) (db : DB) (pid lid : Z) :
  schedule_of (pay_payment d db pid) lid
  = map (mark_paid d pid) (schedule_of db lid).
Proof.
  unfold schedule_of, pay_payment. cbn [payments].
  apply filter_map_swap. intros p. now rewrite mark_paid_loan.
Qed.

(** ** [pay_payment] on an id that no row has *)

Lemma map_mark_paid_unknown (d : string) (pid : Z) (ps : list Payment) :
  ~ In pid (map p_id ps) -> map (mark_paid d pid) ps = ps.
Proof.
  intros H. rewrite <- (map_id ps) at 2. apply map_ext_in. intros p Hp.
  apply mark_paid_other. intros E. apply H. rewrite <- E. now apply in_map.
Qed.

Lemma loan_of_payment_unknown (ps : list Payment) (pid : Z) :
  ~ In pid (map p_id ps) -> loan_of_payment ps pid = None.
Proof.
  intros H. unfold loan_of_payment.
  destruct (find (fun p => p_id p =? pid) ps) as [p|] eqn:E; [|reflexivity].
  apply find_some in E. destruct E as [Hin Hid]. apply Z.eqb_eq in Hid.
  exfalso. apply H. rewrite <- Hid. now apply in_map.
Qed.

Lemma count_unpaid_null (ps : list Payment) : count_unpaid ps None = 0.
Proof.
  unfold count_unpaid. cbn [eq_scalar andb].
  replace (filter (fun _ : Payment => false) ps) with (@nil Payment);
    [reflexivity|].
  induction ps as [|p ps IH]; [reflexivity|exact IH].
Qed.

Lemma pay_payment_absent (d : string) (db : DB) (pid : Z) :
  ~ In pid (map p_id (payments db)) -> pay_payment d db pid = db.
Proof.
  intros H. unfold pay_payment.
  rewrite (map_mark_paid_unknown d pid _ H), (loan_of_payment_unknown _ _ H),
    count_unpaid_null.
  cbn [Z.eqb]. rewrite (map_ext _ (fun l => l) set_repaid_null), map_id.
  now destruct db.
Qed.

(** X2: an id that no payment row has makes [pay_payment] a no-op on both
    tables: no row is marked, the subquery is NULL, the count of unpaid
    rows of that NULL loan is 0, so that the UPDATE of [loans] runs, and
    it selects no row. *)
Theorem pay_payment_unknown_id (d : string) (db : DB) (pid : Z) :
  ~ In pid (map p_id (payments db)) ->
  map (mark_paid d pid) (payments db) = payments db
  /\ loan_of_payment (payments db) pid = None
  /\ count_unpaid (payments db) None = 0
  /\ map (set_repaid None) (loans db) = loans db
  /\ pay_payment d db pid = db.
Proof.
  intros H. split; [now apply map_mark_paid_unknown|].
  split; [now apply loan_of_payment_unknown|].
  split; [apply count_unpaid_null|]. split; [|now apply pay_payment_absent].
  rewrite (map_ext _ (fun l => l) set_repaid_null). apply map_id.
Qed.

Lemma pay_payment_unknown_id_witness :
  pay_payment "2024-03-01" BankSamples.db_two_months 99 = BankSamples.db_two_months.
Proof.
  apply (pay_payment_unknown_id "2024-03-01" BankSamples.db_two_months 99).
  cbn. intuition discriminate.
Defined.

(** ** Paying the same entry again *)

Lemma count_unpaid_date (d1 d2 : string) (pid : Z) (ps : list Payment)
    (sub : option Z) :
  count_unpaid (map (mark_paid d1 pid) ps) sub
  = count_unpaid (map (mark_paid d2 pid) ps) sub.
Proof.
  unfold count_unpaid. f_equal.
  induction ps as [|p ps IH]; cbn [map filter]; [reflexivity|].
  rewrite !mark_paid_loan, !mark_paid_flag.
  destruct (eq_scalar (p_loan_id p) sub && _); cbn [List.length]; now rewrite IH.
Qed.

(** X3: paying an entry a second time only replaces the payment date:
    the state is the one a single payment at the later date gives. *)
Theorem pay_payment_again (d1 d2 : string) (db : DB) (pid : Z) :
  pay_payment d2 (pay_payment d1 db pid) pid = pay_payment d2 db pid.
Proof.
  unfold pay_payment. cbn [payments loans loans_seq payments_seq].
  rewrite map_map, (map_ext _ _ (mark_paid_twice d1 d2 pid)).
  rewrite !loan_of_payment_marked.
  rewrite (count_unpaid_date d1 d2).
  destruct (count_unpaid _ _ =? 0); [|reflexivity].
  rewrite map_map, (map_ext _ _ (set_repaid_twice _)). reflexivity.
Qed.

(** ** What [pay_payment] leaves alone *)

(** X4: a payment changes no id, loan reference, number, due date or
    amount of any schedule row, no column of a loan other than its status,
    and neither sequence; it never marks a paid row unpaid and never takes
    the repaid status away from a loan. *)
Theorem pay_payment_frame (d : string) (db : DB) (pid : Z) :
  map payment_terms (payments (pay_payment d db pid)) = map payment_terms (payments db)
  /\ map loan_terms (loans (pay_payment d db pid)) = map loan_terms (loans db)
  /\ payments_seq (pay_payment d db pid) = payments_seq db
  /\ loans_seq (pay_payment d db pid) = loans_seq db
  /\ Forall2 (fun p p' => p_paid p = 1 -> p_paid p' = 1)
             (payments db) (payments (pay_payment d db pid))
  /\ Forall2 (fun l l' => l_status l = STATUS_REPAID -> l_status l' = STATUS_REPAID)
             (loans db) (loans (pay_payment d db pid)).
Proof.
  unfold pay_payment.
  cbn [payments loans loans_seq payments_seq].
  assert (Hset : forall sub l, loan_terms (set_repaid sub l) = loan_terms l).
  { intros sub l. unfold set_repaid. now destruct (eq_scalar (l_id l) sub). }
  assert (Hkeep : forall sub l, l_status l = STATUS_REPAID ->
                                l_status (set_repaid sub l) = STATUS_REPAID).
  { intros sub l. unfold set_repaid. now destruct (eq_scalar (l_id l) sub). }
  split; [|split; [|split; [reflexivity|split; [reflexivity|split]]]].
  - rewrite map_map. apply map_ext. intros p. unfold payment_terms.
    now rewrite mark_paid_id, mark_paid_loan, mark_paid_number,
      mark_paid_due_date, mark_paid_amount.
  - destruct (_ =? 0); [|reflexivity].
    rewrite map_map. apply map_ext. intros l. apply Hset.
  - induction (payments db) as [|p ps IH]; cbn [map]; constructor; [|exact IH].
    rewrite mark_paid_flag. now destruct (p_id p =? pid).
  - destruct (_ =? 0).
    + induction (loans db) as [|l ls IH]; cbn [map]; constructor; [|exact IH].
      apply Hkeep.
    + induction (loans db) as [|l ls IH]; constructor; [tauto|exact IH].
Qed.

(** ** A term of zero months *)

(** X1: with [term_months = 0] both branches divide by zero, whatever
    the amount and the rate: the zero-rate branch divides by the term, the
    other one by [(1 + r) ** 0 - 1]. *)
Theorem zero_term_divides_by_zero (amount annual_rate_percent : float) :
  calculate_annuity_payment amount annual_rate_percent 0
  = Raise ZeroDivisionError.
Proof.
  unfold calculate_annuity_payment.
  destruct (annual_rate_percent / 100 / 12 =? 0)%float; reflexivity.
Qed.

(** ** What a completed [create_loan] stores *)

Section WithDateTime.
Context {DT : DateTimeLib}.

Lemma schedule_loop_result (start_date loan_id : Z) (amt : float) (ns : list Z) :
  forall db db',
    schedule_loop start_date loan_id amt ns db = Ok db' ->
    db' = {| loans := loans db;
             loans_seq := loans_seq db;
             payments := payments db
               ++ schedule_entries start_date loan_id amt (payments_seq db) ns;
             payments_seq := payments_seq db + Z.of_nat (List.length ns) |}.
Proof.
  induction ns as [|n rest IH]; intros db db' H; cbn [schedule_loop] in H.
  - inversion H; subst db'. destruct db; cbn.
    now rewrite app_nil_r, Z.add_0_r.
  - unfold timedelta in H.
    destruct (Z.abs (30 * n) <=? TIMEDELTA_MAX_DAYS); cbn [bind] in H;
      [|discriminate H].
    unfold datetime_add in H.
    destruct ((MINORDINAL <=? start_date + 30 * n)
              && (start_date + 30 * n <=? MAXORDINAL)); cbn [bind] in H;
      [|discriminate H].
    apply IH in H. rewrite H.
    cbn [insert_payment loans loans_seq payments payments_seq schedule_entries
         List.length].
    rewrite <- app_assoc. cbn [app].
    replace (payments_seq db + 1 + Z.of_nat (List.length rest))
      with (payments_seq db + Z.of_nat (S (List.length rest))) by lia.
    reflexivity.
Qed.

Lemma generate_payment_schedule_result (db db' : DB) (loan_id : Z) (row : Loan) :
  fetch_loan db loan_id = Some row ->
  generate_payment_schedule db loan_id = Ok db' ->
  exists amt start_date,
    calculate_annuity_payment (l_amount row) (l_interest_rate row * 100)%float
                              (l_term_months row) = Ok amt
    /\ strptime (l_start_date row) = Some start_date
    /\ db' = {| loans := loans db;
                loans_seq := loans_seq db;
                payments :=
                  filter (fun p => negb (p_loan_id p =? loan_id)) (payments db)
                  ++ schedule_entries start_date loan_id amt (payments_seq db)
                       (range 1 (l_term_months row + 1));
                payments_seq :=
                  payments_seq db + Z.of_nat (Z.to_nat (l_term_months row)) |}.
Proof.
  intros Hrow H. unfold generate_payment_schedule in H. rewrite Hrow in H.
  destruct (calculate_annuity_payment _ _ _) as [amt|]; cbn [bind] in H;
    [|discriminate H].
  destruct (strptime (l_start_date row)) as [d|]; cbn [bind] in H;
    [|discriminate H].
  exists amt, d. split; [reflexivity|]. split; [reflexivity|].
  apply schedule_loop_result in H. rewrite H.
  cbn [delete_payments loans loans_seq payments payments_seq].
  rewrite range_length. do 3 f_equal. lia.
Qed.

Lemma create_loan_result (today : string) (db db' : DB) (client_id : Z)
    (amount rate : float) (term_months : Z) :
  Forall (fun l => l_id l <= loans_seq db) (loans db) ->
  Forall (fun p => In (p_loan_id p) (map l_id (loans db))) (payments db) ->
  create_loan today db client_id amount rate term_months = Ok db' ->
  exists amt start_date,
    calculate_annuity_payment amount (rate / 100 * 100)%float term_months = Ok amt
    /\ strptime today = Some start_date
    /\ db' = {| loans := loans db
                  ++ [new_loan today db client_id amount rate term_months];
                loans_seq := loans_seq db + 1;
                payments := payments db
                  ++ schedule_entries start_date (loans_seq db + 1) amt
                       (payments_seq db) (range 1 (term_months + 1));
                payments_seq :=
                  payments_seq db + Z.of_nat (Z.to_nat term_months) |}.
Proof.
  intros Hids Hpar H. unfold create_loan in H.
  fold (new_loan today db client_id amount rate term_months) in H.
  set (nl := new_loan today db client_id amount rate term_months) in *.
  assert (Hfetch : fetch_loan
            {| loans := loans db ++ [nl]; loans_seq := loans_seq db + 1;
               payments := payments db; payments_seq := payments_seq db |}
            (loans_seq db + 1) = Some nl).
  { unfold fetch_loan. cbn [loans]. rewrite find_app_last.
    - unfold nl, new_loan. cbn [l_id]. now rewrite Z.eqb_refl.
    - intros l Hl. rewrite Forall_forall in Hids. specialize (Hids l Hl).
      apply Z.eqb_neq. lia. }
  destruct (generate_payment_schedule_result _ _ _ _ Hfetch H)
    as (amt & d & Hamt & Hd & Hdb).
  exists amt, d. split; [exact Hamt|]. split; [exact Hd|].
  rewrite Hdb. cbn [loans loans_seq payments payments_seq].
  rewrite (filter_all _ (payments db)); [reflexivity|].
  rewrite Forall_forall in Hpar, Hids |- *. intros p Hp.
  specialize (Hpar p Hp). apply in_map_iff in Hpar.
  destruct Hpar as (l & Hl & Hin). specialize (Hids l Hin).
  apply negb_true_iff, Z.eqb_neq. lia.
Qed.

End WithDateTime.

(** ** The invariant *)

Lemma status_open_not_repaid : STATUS_OPEN <> STATUS_REPAID.
Proof. discriminate. Qed.

Lemma consistent_empty_db : consistent empty_db.
Proof.
  constructor.
  - apply wf_empty_db.
  - constructor.
  - intros l [].
  - intros l p [].
  - constructor.
  - intros l [].
  - intros l [].
Qed.

Lemma unpaid_none_iff (lid : Z) (ps : list Payment) :
  Forall (fun p => p_paid p = 0 \/ p_paid p = 1) ps ->
  (filter (fun p => (p_loan_id p =? lid) && (p_paid p =? 0)) ps = []
   <-> Forall (fun p => p_paid p = 1) (filter (fun p => p_loan_id p =? lid) ps)).
Proof.
  induction 1 as [|p ps Hp _ IH]; cbn [filter]; [split; [constructor|reflexivity]|].
  destruct (p_loan_id p =? lid); cbn [andb]; [|exact IH].
  destruct Hp as [Hp|Hp]; rewrite Hp; cbn [Z.eqb].
  - split; [discriminate|]. intros F. inversion F; subst. lia.
  - rewrite IH. split; [now constructor|]. intros F. now inversion F.
Qed.

Section WithDateTime.
Context {DT : DateTimeLib}.

Lemma consistent_create_loan (today : string) (db db' : DB) (client_id : Z)
    (amount rate : float) (term_months : Z) :
  consistent db ->
  create_loan today db client_id amount rate term_months = Ok db' ->
  consistent db'.
Proof.
  intros C H.
  pose proof (cs_keys db C) as (K1 & K2 & K3 & K4).
  pose proof (create_loan_wf _ _ _ _ _ _ _ (cs_keys db C) H) as Hwf.
  destruct (create_loan_result _ _ _ _ _ _ _ K2 (cs_parent db C) H)
    as (amt & d & Hamt & Hd & Hdb).
  set (nl := new_loan today db client_id amount rate term_months) in *.
  set (new := schedule_entries d (loans_seq db + 1) amt (payments_seq db)
                (range 1 (term_months + 1))) in *.
  assert (Hold : forall lid, lid <> loans_seq db + 1 ->
                 schedule_of db' lid = schedule_of db lid).
  { intros lid Hne. rewrite Hdb. unfold schedule_of. cbn [payments].
    rewrite filter_app, (filter_none _ new), app_nil_r; [reflexivity|].
    eapply Forall_impl; [|apply schedule_entries_fields]. cbn.
    intros p (-> & _). apply Z.eqb_neq. congruence. }
  assert (Hnew : schedule_of db' (loans_seq db + 1) = new).
  { rewrite Hdb. unfold schedule_of. cbn [payments].
    rewrite filter_app, (filter_none _ (payments db)), (filter_all _ new).
    - reflexivity.
    - eapply Forall_impl; [|apply schedule_entries_fields]. cbn.
      intros p (-> & _). apply Z.eqb_refl.
    - pose proof (cs_parent db C) as Hpar.
      rewrite Forall_forall in Hpar, K2 |- *. intros p Hp.
      specialize (Hpar p Hp). apply in_map_iff in Hpar.
      destruct Hpar as (l & Hl & Hin). specialize (K2 l Hin).
      apply Z.eqb_neq. lia. }
  assert (Hloans : forall l, In l (loans db') ->
            (In l (loans db) /\ l_id l <> loans_seq db + 1) \/ l = nl).
  { intros l Hl. rewrite Hdb in Hl. cbn [loans] in Hl.
    apply in_app_or in Hl. destruct Hl as [Hl|[<-|[]]]; [left|now right].
    split; [exact Hl|]. rewrite Forall_forall in K2. specialize (K2 l Hl). lia. }
  constructor.
  - exact Hwf.
  - rewrite Hdb. cbn [payments loans]. rewrite map_app. apply Forall_app. split.
    + eapply Forall_impl; [|apply (cs_parent db C)]. cbn. intros p Hp.
      apply in_or_app. now left.
    + eapply Forall_impl; [|apply schedule_entries_fields]. cbn.
      intros p (-> & _). apply in_or_app. right. now left.
  - intros l Hl. destruct (Hloans l Hl) as [[Hin Hne]| ->].
    + rewrite (Hold _ Hne). now apply (cs_numbers db C).
    + unfold nl at 1. cbn [new_loan l_id]. rewrite Hnew.
      apply schedule_entries_numbers.
  - intros l p Hl Hp. destruct (Hloans l Hl) as [[Hin Hne]| ->].
    + rewrite (Hold _ Hne) in Hp. now apply (cs_amount db C).
    + unfold nl in Hp at 1. cbn [new_loan l_id] in Hp. rewrite Hnew in Hp.
      pose proof (schedule_entries_fields d (loans_seq db + 1) amt
                    (payments_seq db) (range 1 (term_months + 1))) as F.
      rewrite Forall_forall in F. destruct (F p Hp) as (_ & -> & _).
      exact Hamt.
  - rewrite Hdb. cbn [payments]. apply Forall_app. split; [apply (cs_flag db C)|].
    eapply Forall_impl; [|apply schedule_entries_fields]. cbn.
    intros p (_ & _ & -> & _). now left.
  - intros l Hl. destruct (Hloans l Hl) as [[Hin Hne]| ->].
    + now apply (cs_status db C).
    + now left.
  - intros l Hl. destruct (Hloans l Hl) as [[Hin Hne]| ->].
    + rewrite (Hold _ Hne). now apply (cs_repaid db C).
    + unfold nl at 2 3. cbn [new_loan l_id]. rewrite Hnew. split.
      * intros E. exfalso. now apply status_open_not_repaid.
      * intros [Hne Hall]. exfalso.
        pose proof (schedule_entries_fields d (loans_seq db + 1) amt
                      (payments_seq db) (range 1 (term_months + 1))) as F.
        fold new in F. destruct new as [|p ps]; [now apply Hne|].
        inversion Hall as [|? ? H1 _]; subst.
        inversion F as [|? ? (_ & _ & H0 & _) _]; subst. lia.
Qed.

End WithDateTime.

Lemma consistent_pay_payment (d : string) (db : DB) (pid : Z) :
  consistent db -> consistent (pay_payment d db pid).
Proof.
  intros C.
  destruct (in_dec Z.eq_dec pid (map p_id (payments db))) as [Hin|Hout];
    [|now rewrite pay_payment_absent].
  apply in_map_iff in Hin. destruct Hin as (pay & Hid & Hpay).
  pose proof (cs_keys db C) as (K1 & K2 & K3 & K4).
  set (lid := p_loan_id pay).
  set (db' := pay_payment d db pid).
  assert (Hparent : loan_of_payment (map (mark_paid d pid) (payments db)) pid
                    = Some lid).
  { rewrite loan_of_payment_marked, <- Hid. now apply loan_of_payment_unique. }
  assert (Hpays : payments db' = map (mark_paid d pid) (payments db)) by reflexivity.
  set (c := count_unpaid (payments db') (Some lid)).
  assert (Hloans : loans db'
                   = map (set_repaid (if c =? 0 then Some lid else None)) (loans db)).
  { unfold db', pay_payment. cbn [loans]. rewrite Hparent. fold db'.
    rewrite <- Hpays. fold c. destruct (c =? 0); [reflexivity|].
    now rewrite (map_ext _ (fun l => l) set_repaid_null), map_id. }
  assert (Hflag : Forall (fun p => p_paid p = 0 \/ p_paid p = 1) (payments db')).
  { rewrite Hpays. apply Forall_forall. intros p Hp. apply in_map_iff in Hp.
    destruct Hp as (q & <- & Hq). rewrite mark_paid_flag.
    destruct (p_id q =? pid); [now right|].
    pose proof (cs_flag db C) as F. rewrite Forall_forall in F. now apply F. }
  assert (Hc : (c =? 0) = true
               <-> Forall (fun p => p_paid p = 1) (schedule_of db' lid)).
  { unfold c. rewrite count_unpaid_zero. now apply unpaid_none_iff. }
  assert (Hsched : forall l, schedule_of db' l = map (mark_paid d pid) (schedule_of db l))
    by (intros l; apply schedule_of_pay_payment).
  assert (Hmine : In pay (schedule_of db lid)).
  { apply filter_In. split; [exact Hpay|]. apply Z.eqb_refl. }
  assert (Hother : forall l, l <> lid -> schedule_of db' l = schedule_of db l).
  { intros l Hne. rewrite Hsched. rewrite <- (map_id (schedule_of db l)) at 2.
    apply map_ext_in. intros p Hp. apply filter_In in Hp.
    destruct Hp as [Hp Hl]. apply Z.eqb_eq in Hl.
    apply mark_paid_other. intros E.
    assert (p = pay).
    { clear -K3 Hp Hpay E Hid. rewrite <- Hid in E. revert K3 Hp Hpay E.
      generalize (payments db). intros ps. induction ps as [|q qs IH];
        intros Hnd H1 H2 E; [destruct H1|].
      cbn [map] in Hnd. inversion Hnd as [|? ? Hn Hnd']; subst.
      destruct H1 as [->|H1], H2 as [->|H2]; try reflexivity.
      - exfalso. apply Hn. rewrite E. now apply in_map.
      - exfalso. apply Hn. rewrite <- E. now apply in_map.
      - now apply IH. }
    subst p. now apply Hne. }
  constructor.
  - now apply pay_payment_wf.
  - rewrite Hpays, Hloans, map_set_repaid_ids. apply Forall_forall.
    intros p Hp. apply in_map_iff in Hp. destruct Hp as (q & <- & Hq).
    rewrite mark_paid_loan. pose proof (cs_parent db C) as F.
    rewrite Forall_forall in F. now apply F.
  - intros l' Hl'. rewrite Hloans in Hl'. apply in_map_iff in Hl'.
    destruct Hl' as (l & <- & Hl). rewrite set_repaid_id, Hsched, map_map.
    rewrite (map_ext _ p_payment_number) by (intros; apply mark_paid_number).
    replace (l_term_months (set_repaid _ l)) with (l_term_months l)
      by (unfold set_repaid; now destruct (eq_scalar _ _)).
    now apply (cs_numbers db C).
  - intros l' p' Hl' Hp'. rewrite Hloans in Hl'. apply in_map_iff in Hl'.
    destruct Hl' as (l & <- & Hl). rewrite set_repaid_id, Hsched in Hp'.
    apply in_map_iff in Hp'. destruct Hp' as (p & <- & Hp).
    rewrite mark_paid_amount.
    replace (calculate_annuity_payment _ _ _)
      with (calculate_annuity_payment (l_amount l) (l_interest_rate l * 100)%float
              (l_term_months l))
      by (unfold set_repaid; now destruct (eq_scalar _ _)).
    now apply (cs_amount db C).
  - exact Hflag.
  - intros l' Hl'. rewrite Hloans in Hl'. apply in_map_iff in Hl'.
    destruct Hl' as (l & <- & Hl). unfold set_repaid.
    destruct (eq_scalar _ _); [now right|]. now apply (cs_status db C).
  - intros l' Hl'. rewrite Hloans in Hl'. apply in_map_iff in Hl'.
    destruct Hl' as (l & <- & Hl). rewrite set_repaid_id.
    destruct (Z.eq_dec (l_id l) lid) as [E|Hne].
    + rewrite E. destruct (c =? 0) eqn:Ec.
      * unfold set_repaid. cbn [eq_scalar]. rewrite E, Z.eqb_refl. cbn [l_status].
        split; [|reflexivity]. intros _. split; [|now apply Hc].
        rewrite Hsched. intros N. apply map_eq_nil in N.
        rewrite N in Hmine. destruct Hmine.
      * rewrite set_repaid_null. split.
        -- intros R. exfalso.
           apply (cs_repaid db C l Hl) in R. destruct R as [_ R]. rewrite E in R.
           assert (F : Forall (fun p => p_paid p = 1) (schedule_of db' lid)).
           { rewrite Hsched. apply Forall_forall. intros p Hp.
             apply in_map_iff in Hp. destruct Hp as (q & <- & Hq).
             rewrite mark_paid_flag. destruct (p_id q =? pid); [reflexivity|].
             rewrite Forall_forall in R. now apply R. }
           apply Hc in F. congruence.
        -- intros [_ F]. apply Hc in F. congruence.
    + rewrite (Hother _ Hne).
      replace (set_repaid _ l) with l; [now apply (cs_repaid db C)|].
      destruct (c =? 0); [symmetry; now apply set_repaid_other|reflexivity].
Qed.

Section WithDateTime.
Context {DT : DateTimeLib}.

Lemma reachable_consistent (db : DB) : reachable db -> consistent db.
Proof.
  induction 1 as [|db db' today cid a r t _ IH H|db d pid _ IH].
  - apply consistent_empty_db.
  - eapply consistent_create_loan; eassumption.
  - now apply consistent_pay_payment.
Qed.

End WithDateTime.

(** ** The properties of the reachable states *)

Lemma sample_run_reachable : reachable (DT := iso_datetime) sample_run.
Proof.
  apply (reachable_create_loan (DT := iso_datetime) empty_db sample_run
           "2024-01-31" 1 1000 12 2); [apply reachable_start | reflexivity].
Qed.

Section WithDateTime.
Context {DT : DateTimeLib}.

Lemma consistent_schedule_length (db : DB) (l : Loan) :
  consistent db -> In l (loans db) ->
  List.length (schedule_of db (l_id l)) = Z.to_nat (l_term_months l).
Proof.
  intros C Hl.
  rewrite <- (length_map p_payment_number), (cs_numbers db C l Hl), range_length.
  f_equal. lia.
Qed.

Lemma create_loan_loans (today : string) (db db' : DB) (client_id : Z)
    (amount rate : float) (term_months : Z) :
  consistent db ->
  create_loan today db client_id amount rate term_months = Ok db' ->
  loans db' = loans db ++ [new_loan today db client_id amount rate term_months]
  /\ ~ In (loans_seq db + 1) (map l_id (loans db)).
Proof.
  intros C H. pose proof (cs_keys db C) as (K1 & K2 & K3 & K4).
  destruct (create_loan_result _ _ _ _ _ _ _ K2 (cs_parent db C) H)
    as (amt & d & Hamt & Hd & Hdb).
  rewrite Hdb. cbn [loans]. split; [reflexivity|].
  intros Hin. apply in_map_iff in Hin. destruct Hin as (l & Hl & Hin).
  rewrite Forall_forall in K2. specialize (K2 l Hin). lia.
Qed.

(** X6: in every state a run reaches, the schedule of each stored loan
    is numbered 1..term_months in table order, so it has exactly
    term_months rows (none for a term that is not positive), and every
    row carries the amount [calculate_annuity_payment] returns for the
    columns of its loan. *)
Theorem reachable_schedules (db : DB) (l : Loan) :
  reachable db ->
  In l (loans db) ->
  map p_payment_number (schedule_of db (l_id l)) = range 1 (l_term_months l + 1)
  /\ List.length (schedule_of db (l_id l)) = Z.to_nat (l_term_months l)
  /\ Forall (fun p =>
        calculate_annuity_payment (l_amount l) (l_interest_rate l * 100)%float
                                  (l_term_months l) = Ok (p_amount p))
       (schedule_of db (l_id l))
  /\ Forall (fun p => In (p_loan_id p) (map l_id (loans db))) (payments db).
Proof.
  intros R Hl. pose proof (reachable_consistent db R) as C.
  pose proof (cs_numbers db C l Hl) as N.
  split; [exact N|]. split.
  - now apply consistent_schedule_length.
  - split; [|apply (cs_parent db C)].
    apply Forall_forall. intros p Hp. now apply (cs_amount db C).
Qed.

(** X7: in every state a run reaches, a loan has the repaid status
    exactly when it has a schedule and every row of it is paid; otherwise
    its status is the open one. *)
Theorem reachable_repaid_iff_all_paid (db : DB) (l : Loan) :
  reachable db ->
  In l (loans db) ->
  (l_status l = STATUS_REPAID
   <-> schedule_of db (l_id l) <> []
       /\ Forall (fun p => p_paid p = 1) (schedule_of db (l_id l)))
  /\ (l_status l <> STATUS_REPAID -> l_status l = STATUS_OPEN).
Proof.
  intros R Hl. pose proof (reachable_consistent db R) as C.
  split; [now apply (cs_repaid db C)|].
  intros Hn. destruct (cs_status db C l Hl) as [H|H]; [exact H|contradiction].
Qed.

(** X5: a completed [create_loan] appends one loan row and the rows of
    its schedule, and leaves every loan and every schedule row stored
    before exactly as it was. *)
Theorem create_loan_appends (today : string) (db db' : DB) (client_id : Z)
    (amount rate : float) (term_months : Z) :
  reachable db ->
  create_loan today db client_id amount rate term_months = Ok db' ->
  loans db' = loans db ++ [new_loan today db client_id amount rate term_months]
  /\ ~ In (loans_seq db + 1) (map l_id (loans db))
  /\ exists new,
       payments db' = payments db ++ new
       /\ List.length new = Z.to_nat term_months
       /\ Forall (fun p => p_loan_id p = loans_seq db + 1 /\ p_paid p = 0) new.
Proof.
  intros R H. pose proof (reachable_consistent db R) as C.
  pose proof (cs_keys db C) as (K1 & K2 & K3 & K4).
  destruct (create_loan_result _ _ _ _ _ _ _ K2 (cs_parent db C) H)
    as (amt & d & Hamt & Hd & Hdb).
  rewrite Hdb. cbn [loans payments]. split; [reflexivity|]. split.
  - intros Hin. apply in_map_iff in Hin. destruct Hin as (l & Hl & Hin).
    rewrite Forall_forall in K2. specialize (K2 l Hin). lia.
  - eexists. split; [reflexivity|]. split.
    + rewrite schedule_entries_length, range_length. f_equal. lia.
    + eapply Forall_impl; [|apply schedule_entries_fields]. cbn. tauto.
Qed.

End WithDateTime.

Lemma reachable_schedules_witness :
  map p_payment_number (schedule_of sample_run 1) = [1; 2]
  /\ List.length (schedule_of sample_run 1) = 2%nat.
Proof.
  destruct (reachable_schedules (DT := iso_datetime) sample_run
              (nth 0 (loans sample_run) BankSamples.loan_2024)
              sample_run_reachable ltac:(now left)) as (H1 & H2 & _).
  split; [exact H1|exact H2].
Defined.

Lemma reachable_repaid_witness :
  l_status (nth 0 (loans sample_run) BankSamples.loan_2024) = STATUS_OPEN.
Proof.
  destruct (reachable_repaid_iff_all_paid (DT := iso_datetime) sample_run
              (nth 0 (loans sample_run) BankSamples.loan_2024)
              sample_run_reachable ltac:(now left)) as (_ & H).
  apply H. discriminate.
Defined.

Lemma create_loan_appends_witness :
  exists db', create_loan (DT := iso_datetime) "2024-02-15" sample_run 1 500 0 3 = Ok db'
              /\ List.length (loans db') = 2%nat
              /\ List.length (payments db') = 5%nat.
Proof.
  eexists. split; [reflexivity|].
  destruct (create_loan_appends (DT := iso_datetime) "2024-02-15" sample_run _
              1 500 0 3 sample_run_reachable eq_refl) as (H1 & _ & new & H2 & H3 & _).
  rewrite H1, H2, !length_app, H3. split; reflexivity.
Defined.

(** ** Paying a whole schedule *)

Lemma pay_all_payments (d : string) (ids : list Z) :
  forall db, payments (pay_all d ids db) = map (mark_many d ids) (payments db).
Proof.
  induction ids as [|i ids IH]; intros db; cbn [pay_all fold_left].
  - unfold mark_many. cbn. now rewrite map_id.
  - fold (pay_all d ids (pay_payment d db i)). rewrite IH.
    cbn [pay_payment payments]. rewrite map_map. reflexivity.
Qed.

Lemma mark_many_id (d : string) (ids : list Z) :
  forall p, p_id (mark_many d ids p) = p_id p
            /\ p_loan_id (mark_many d ids p) = p_loan_id p.
Proof.
  induction ids as [|i ids IH]; intros p; [now split|].
  unfold mark_many. cbn [fold_left]. fold (mark_many d ids (mark_paid d i p)).
  destruct (IH (mark_paid d i p)) as [H1 H2].
  now rewrite H1, H2, mark_paid_id, mark_paid_loan.
Qed.

Lemma mark_many_paid (d : string) (ids : list Z) :
  forall p, p_paid p = 1 \/ In (p_id p) ids -> p_paid (mark_many d ids p) = 1.
Proof.
  induction ids as [|i ids IH]; intros p H.
  - destruct H as [H|[]]. exact H.
  - unfold mark_many. cbn [fold_left]. fold (mark_many d ids (mark_paid d i p)).
    apply IH. rewrite mark_paid_flag, mark_paid_id.
    destruct (Z.eqb_spec (p_id p) i) as [E|N]; [now left|].
    destruct H as [H|[H|H]]; [now left|congruence|now right].
Qed.

Section WithDateTime.
Context {DT : DateTimeLib}.

Lemma pay_all_reachable (d : string) (ids : list Z) :
  forall db, reachable db -> reachable (pay_all d ids db).
Proof.
  induction ids as [|i ids IH]; intros db R; [exact R|].
  cbn [pay_all fold_left]. apply IH. now constructor.
Qed.

(** X8: from a state a run reaches, once the menu has paid every entry
    of a loan's schedule (the ids of all its rows, in any order, possibly
    among others), the loan has the repaid status. *)
Theorem pay_all_repays_loan (d : string) (ids : list Z) (db : DB) (lid : Z) (l' : Loan) :
  reachable db ->
  schedule_of db lid <> [] ->
  (forall p, In p (schedule_of db lid) -> In (p_id p) ids) ->
  In l' (loans (pay_all d ids db)) ->
  l_id l' = lid ->
  l_status l' = STATUS_REPAID.
Proof.
  intros R Hne Hall Hl' Hid.
  pose proof (reachable_consistent _ (pay_all_reachable d ids db R)) as C.
  apply (cs_repaid _ C l' Hl'). rewrite Hid.
  assert (E : schedule_of (pay_all d ids db) lid
              = map (mark_many d ids) (schedule_of db lid)).
  { unfold schedule_of. rewrite pay_all_payments.
    apply filter_map_swap. intros p.
    now destruct (mark_many_id d ids p) as [_ ->]. }
  rewrite E. split.
  - intros N. apply map_eq_nil in N. contradiction.
  - apply Forall_forall. intros p Hp. apply in_map_iff in Hp.
    destruct Hp as (q & <- & Hq). apply mark_many_paid. right. now apply Hall.
Qed.

End WithDateTime.

Lemma pay_all_repays_witness :
  map l_status (loans (pay_all "2024-04-01" [2; 1] sample_run)) = [STATUS_REPAID].
Proof.
  assert (H := pay_all_repays_loan (DT := iso_datetime) "2024-04-01" [2; 1]
                 sample_run 1
                 (nth 0 (loans (pay_all "2024-04-01" [2; 1] sample_run))
                      BankSamples.loan_2024)
                 sample_run_reachable).
  cbn [map]. change (loans (pay_all "2024-04-01" [2; 1] sample_run))
    with [nth 0 (loans (pay_all "2024-04-01" [2; 1] sample_run))
              BankSamples.loan_2024].
  cbn [map]. rewrite H; [reflexivity | discriminate | | now left | reflexivity].
  intros p [<-|[<-|[]]]; cbn; tauto.
Defined.

(** ** The listing of loans *)

Lemma NoDup_map_inj {A B : Type} (f : A -> B) (l : list A) (x y : A) :
  NoDup (map f l) -> In x l -> In y l -> f x = f y -> x = y.
Proof.
  induction l as [|a l IH]; intros Hnd Hx Hy E; [destruct Hx|].
  cbn [map] in Hnd. inversion Hnd as [|? ? Hn Hnd']; subst.
  destruct Hx as [->|Hx], Hy as [->|Hy]; try reflexivity.
  - exfalso. apply Hn. rewrite E. now apply in_map.
  - exfalso. apply Hn. rewrite <- E. now apply in_map.
  - now apply IH.
Qed.

Lemma list_loans_In (t : ClientTable) (db : DB) (line : LoanLine) :
  In line (list_loans t db)
  <-> exists l c, In l (loans db) /\ In c (clients t)
                  /\ c_id c = l_client_id l /\ line = loan_line l c.
Proof.
  unfold list_loans. rewrite in_flat_map. split.
  - intros (l & Hl & Hline). apply in_map_iff in Hline.
    destruct Hline as (c & <- & Hc). apply filter_In in Hc.
    destruct Hc as [Hc E]. apply Z.eqb_eq in E. now exists l, c.
  - intros (l & c & Hl & Hc & E & ->). exists l. split; [exact Hl|].
    apply in_map. apply filter_In. split; [exact Hc|]. now apply Z.eqb_eq.
Qed.

(** X9: [list_loans] is an inner join: a stored loan appears in the
    listing exactly when its [client_id] is the id of a registered
    client. *)
Theorem list_loans_shows_known_clients (t : ClientTable) (db : DB) (l : Loan) :
  NoDup (map l_id (loans db)) ->
  In l (loans db) ->
  ((exists line, In line (list_loans t db) /\ ll_id line = l_id l)
   <-> In (l_client_id l) (map c_id (clients t))).
Proof.
  intros Hnd Hl. split.
  - intros (line & Hline & Hid). apply list_loans_In in Hline.
    destruct Hline as (l0 & c & Hl0 & Hc & E & ->). cbn [loan_line ll_id] in Hid.
    assert (l0 = l) by (eapply NoDup_map_inj; eassumption). subst l0.
    rewrite <- E. now apply in_map.
  - intros Hin. apply in_map_iff in Hin. destruct Hin as (c & E & Hc).
    exists (loan_line l c). split; [|reflexivity].
    apply list_loans_In. now exists l, c.
Qed.

Lemma list_loans_shows_known_clients_witness :
  exists line, In line (list_loans sample_clients sample_run) /\ ll_id line = 1.
Proof.
  apply (list_loans_shows_known_clients sample_clients sample_run
           (nth 0 (loans sample_run) BankSamples.loan_2024)).
  - repeat constructor. intros [].
  - now left.
  - now left.
Defined.

Section WithDateTime.
Context {DT : DateTimeLib}.

(** X10: [create_loan] does not look the client up: for a [client_id]
    that no registered client has, a completed call still stores the loan
    with its schedule, and [list_loans] never shows that loan. *)
Theorem create_loan_for_unknown_client
    (t : ClientTable) (today : string) (db db' : DB) (client_id : Z)
    (amount rate : float) (term_months : Z) :
  reachable db ->
  ~ In client_id (map c_id (clients t)) ->
  create_loan today db client_id amount rate term_months = Ok db' ->
  In (new_loan today db client_id amount rate term_months) (loans db')
  /\ List.length (schedule_of db' (loans_seq db + 1)) = Z.to_nat term_months
  /\ forall line, In line (list_loans t db') -> ll_id line <> loans_seq db + 1.
Proof.
  intros R Hc H.
  assert (R' : reachable db') by (econstructor; eassumption).
  destruct (create_loan_loans _ _ _ _ _ _ _ (reachable_consistent db R) H)
    as (Hloans & Hfresh).
  assert (Hnew : In (new_loan today db client_id amount rate term_months) (loans db')).
  { rewrite Hloans. apply in_or_app. right. now left. }
  split; [exact Hnew|]. split.
  - exact (consistent_schedule_length db' _ (reachable_consistent db' R') Hnew).
  - intros line Hline Hid. apply list_loans_In in Hline.
    destruct Hline as (l & c & Hl & Hcin & E & ->). cbn [loan_line ll_id] in Hid.
    rewrite Hloans in Hl. apply in_app_or in Hl. destruct Hl as [Hl|[<-|[]]].
    + apply Hfresh. rewrite <- Hid. now apply in_map.
    + apply Hc. cbn [new_loan l_client_id] in E. rewrite <- E. now apply in_map.
Qed.

End WithDateTime.

Lemma create_loan_for_unknown_client_witness :
  In (new_loan "2024-02-15" sample_run 42 500 0 3) (loans sample_orphan)
  /\ map ll_id (list_loans sample_clients sample_orphan) = [1].
Proof.
  destruct (create_loan_for_unknown_client (DT := iso_datetime) sample_clients
              "2024-02-15" sample_run sample_orphan 42 500 0 3
              sample_run_reachable) as (H1 & _ & _);
    [cbn; intuition discriminate | reflexivity |].
  split; [exact H1 | reflexivity].
Defined.

End LedgerFacts.

(* ================================================================== *)
(** * The partner tool: round trips, deletion and the distribution *)
(* ================================================================== *)

Module StoreFacts.
Import PartnerApp PartnerStore PartnerFacts.

Lemma read_row_id (row : Partner) : id (read_row row) = id row.
Proof. reflexivity. Qed.

Lemma get_all_partners_ids (s : Store) :
  map id (get_all_partners s) = map id (partners (tables s)).
Proof. unfold get_all_partners. rewrite map_map. reflexivity. Qed.

Lemma read_row_update_row (partner row : Partner) :
  read_row (update_row partner row)
  = if id (read_row row) =? id partner then read_row partner else read_row row.
Proof.
  unfold update_row. cbn [read_row id].
  destruct (Z.eqb_spec (id row) (id partner)) as [E|_]; [|reflexivity].
  unfold read_row. cbn. now rewrite E.
Qed.

(** X12: after [update_partner], [get_all_partners] returns the partner
    of that id with the thirteen stored fields of the argument, and every
    other partner as before, in the same order; whatever [priority] and
    [tags] the argument carries, every partner read back has the defaults
    "medium" and "": the two fields are never stored. *)
Theorem update_partner_then_get_all (partner : Partner) (s : Store) :
  get_all_partners (update_partner partner s)
  = map (fun q => if id q =? id partner then read_row partner else q)
        (get_all_partners s)
  /\ Forall (fun q => priority q = "medium"%string /\ tags q = EmptyString)
            (get_all_partners (update_partner partner s)).
Proof.
  split.
  - unfold get_all_partners, update_partner, PartnerApp.update_partner.
    cbn [tables partners]. rewrite !map_map. apply map_ext. intros row.
    apply read_row_update_row.
  - unfold get_all_partners. apply Forall_forall. intros q Hq.
    apply in_map_iff in Hq. destruct Hq as (row & <- & _). now split.
Qed.

Lemma add_partner_fresh (s : Store) :
  store_keys s -> ~ In (partners_seq s + 1) (map id (partners (tables s))).
Proof.
  intros [_ Hle] Hin. apply in_map_iff in Hin. destruct Hin as (p & Hp & Hin).
  rewrite Forall_forall in Hle. specialize (Hle p Hin). lia.
Qed.

Lemma add_partner_keys (partner : Partner) (s : Store) :
  store_keys s -> store_keys (snd (add_partner partner s)).
Proof.
  intros H. pose proof (add_partner_fresh s H) as Hfresh.
  destruct H as [Hnd Hle].
  unfold store_keys. cbn [add_partner snd tables partners partners_seq]. split.
  - rewrite map_app. cbn [map read_row with_id id].
    apply NoDup_app; [exact Hnd | repeat constructor; intros [] | ].
    intros x Hx [<-|[]]. contradiction.
  - apply Forall_app. split.
    + eapply Forall_impl; [|exact Hle]. cbn. intros p Hp. lia.
    + repeat constructor. cbn. lia.
Qed.

(** X11: [add_partner] returns an id that no stored partner has, and a
    following [get_all_partners] returns the partners stored before
    followed by the new one under that id, with [priority] and [tags]
    reset to the defaults. *)
Theorem add_partner_then_get_all (partner : Partner) (s : Store) :
  store_keys s ->
  fst (add_partner partner s) = partners_seq s + 1
  /\ ~ In (fst (add_partner partner s)) (map id (get_all_partners s))
  /\ get_all_partners (snd (add_partner partner s))
     = get_all_partners s
       ++ [read_row (with_id (fst (add_partner partner s)) partner)]
  /\ store_keys (snd (add_partner partner s)).
Proof.
  intros H. pose proof (add_partner_fresh s H) as Hfresh.
  split; [reflexivity|]. split.
  - cbn [add_partner fst]. now rewrite get_all_partners_ids.
  - split; [|now apply add_partner_keys].
    unfold get_all_partners. cbn [add_partner fst snd tables partners].
    rewrite map_app. reflexivity.
Qed.

Lemma store_keys_empty : store_keys empty_store.
Proof. split; constructor. Qed.

Lemma store_keys_sample : store_keys sample_store.
Proof.
  unfold sample_store. apply add_partner_keys, add_partner_keys, store_keys_empty.
Qed.

Lemma add_partner_then_get_all_witness :
  map (fun p => (id p, name p, priority p))
      (get_all_partners (snd (add_partner partner_vip
                                (snd (add_partner partner_before empty_store)))))
  = [(1, "Anna", "medium"); (2, "Boris", "medium")]%string.
Proof.
  destruct (add_partner_then_get_all partner_vip
              (snd (add_partner partner_before empty_store)))
    as (_ & _ & H & _).
  - apply add_partner_keys, store_keys_empty.
  - rewrite H. reflexivity.
Defined.

(** ** An id that is not stored *)

Lemma update_partner_unknown_rows (partner : Partner) (rows : list Partner) :
  ~ In (id partner) (map id rows) -> map (update_row partner) rows = rows.
Proof.
  intros H. rewrite <- (map_id rows) at 2. apply map_ext_in. intros row Hrow.
  unfold update_row. destruct (Z.eqb_spec (id row) (id partner)) as [E|_];
    [|reflexivity].
  exfalso. apply H. rewrite <- E. now apply in_map.
Qed.

Section WithStr.
Variable float_str : float -> string.
Variable now : nat -> string.

(** X13: for a partner whose id is not in the table,
    [update_partner_with_history] changes no row of [partners], and still
    writes one history row for each tracked field on which the two
    objects differ: the log then records an update that did not happen. *)
Theorem update_with_history_unknown_partner
    (partner old_partner : Partner) (user : string) (d : DB) :
  ~ In (id partner) (map id (partners d)) ->
  partners (PartnerApp.update_partner_with_history float_str now
              partner old_partner user d) = partners d
  /\ exists added,
       change_history (PartnerApp.update_partner_with_history float_str now
                         partner old_partner user d)
       = change_history d ++ added
       /\ map entry_of added
          = changed (PartnerApp.changes float_str partner old_partner)
       /\ Forall (fun c => ch_partner_id c = id partner) added.
Proof.
  intros H.
  destruct (record_changes_appends now (id partner) user
              (PartnerApp.changes float_str partner old_partner) 0%nat d)
    as (added & H1 & H2 & H3 & H4).
  unfold PartnerApp.update_partner_with_history, PartnerApp.update_partner.
  cbn [partners change_history]. rewrite H2. split.
  - now apply update_partner_unknown_rows.
  - exists added. split; [exact H1|]. split; [exact H3|].
    eapply Forall_impl; [|exact H4]. cbn. tauto.
Qed.

End WithStr.

Lemma update_with_history_unknown_partner_witness :
  map entry_of
    (change_history
       (PartnerApp.update_partner_with_history sample_float_str
          (fun _ => "2024-02-01 10:00:00"%string)
          partner_after partner_before "system"
          {| partners := []; change_history := []; change_history_seq := 0 |}))
  = [ ("email", "anna@old.example", "anna@new.example");
      ("total_sales", "100.0", "250.5") ]%string.
Proof.
  destruct (update_with_history_unknown_partner sample_float_str
              (fun _ => "2024-02-01 10:00:00"%string)
              partner_after partner_before "system"
              {| partners := []; change_history := []; change_history_seq := 0 |})
    as (_ & added & H1 & H2 & _); [intros [] |].
  rewrite H1. cbn [app change_history]. rewrite H2. reflexivity.
Defined.

(** ** Deletion *)

Lemma filter_read_row (i : Z) (rows : list Partner) :
  map read_row (List.filter (fun p => negb (id p =? i)) rows)
  = List.filter (fun p => negb (id p =? i)) (map read_row rows).
Proof.
  induction rows as [|r rows IH]; [reflexivity|].
  cbn [List.filter map read_row id].
  destruct (negb (id r =? i)); cbn [map]; now rewrite IH.
Qed.

(** X14: [delete_partner] removes the partner of that id and its rows
    of [sales_history] and [contacts], keeps every other partner in place,
    and leaves [change_history] as it is: the history rows of the deleted
    partner stay in the table. *)
Theorem delete_partner_keeps_history (i : Z) (s : Store) :
  get_all_partners (delete_partner i s)
  = List.filter (fun p => negb (id p =? i)) (get_all_partners s)
  /\ ~ In i (map id (get_all_partners (delete_partner i s)))
  /\ Forall (fun x => s_partner_id x <> i) (sales_history (delete_partner i s))
  /\ Forall (fun x => k_partner_id x <> i) (contacts (delete_partner i s))
  /\ (forall x, In x (sales_history s) -> s_partner_id x <> i ->
                In x (sales_history (delete_partner i s)))
  /\ (forall x, In x (contacts s) -> k_partner_id x <> i -> In x (contacts (delete_partner i s)))
  /\ change_history (tables (delete_partner i s)) = change_history (tables s)
  /\ partners_seq (delete_partner i s) = partners_seq s.
Proof.
  unfold delete_partner, get_all_partners.
  cbn [tables partners sales_history contacts change_history partners_seq].
  split; [apply filter_read_row|]. split.
  { rewrite map_map. cbn [read_row id]. intros Hin. apply in_map_iff in Hin.
    destruct Hin as (p & Hp & Hin). apply filter_In in Hin.
    destruct Hin as [_ Hne]. rewrite Hp, Z.eqb_refl in Hne. discriminate Hne. }
  split.
  { apply Forall_forall. intros x Hx. apply filter_In in Hx.
    destruct Hx as [_ Hne]. apply negb_true_iff, Z.eqb_neq in Hne. exact Hne. }
  split.
  { apply Forall_forall. intros x Hx. apply filter_In in Hx.
    destruct Hx as [_ Hne]. apply negb_true_iff, Z.eqb_neq in Hne. exact Hne. }
  split.
  { intros x Hx Hne. apply filter_In. split; [exact Hx|].
    now apply negb_true_iff, Z.eqb_neq. }
  split; [|split; reflexivity].
  intros x Hx Hne. apply filter_In. split; [exact Hx|].
  now apply negb_true_iff, Z.eqb_neq.
Qed.

(** X15: the id of a deleted partner is not given out again: the next
    [add_partner] returns an id above every id the table ever held, so the
    history rows a deleted partner leaves behind are never those of a
    later partner. *)
Theorem deleted_id_is_not_reused (i : Z) (partner : Partner) (s : Store) :
  store_keys s ->
  In i (map id (partners (tables s))) ->
  i < fst (add_partner partner (delete_partner i s))
  /\ Forall (fun p => id p < fst (add_partner partner (delete_partner i s)))
            (partners (tables s))
  /\ change_history (tables (snd (add_partner partner (delete_partner i s))))
     = change_history (tables s).
Proof.
  intros [_ Hle] Hin. cbn [add_partner delete_partner fst snd partners_seq
                           tables change_history].
  rewrite Forall_forall in Hle. split; [|split; [|reflexivity]].
  - apply in_map_iff in Hin. destruct Hin as (p & <- & Hp).
    specialize (Hle p Hp). lia.
  - apply Forall_forall. intros p Hp. specialize (Hle p Hp). lia.
Qed.

Lemma deleted_id_is_not_reused_witness :
  fst (add_partner partner_vip (delete_partner 2 sample_store)) = 3.
Proof.
  destruct (deleted_id_is_not_reused 2 partner_vip sample_store store_keys_sample)
    as (H & _); [cbn; tauto|].
  reflexivity.
Defined.

(** ** The distribution by category *)

Lemma dict_get_set_same (k : string) (v : Z) (d : list (string * Z)) (def : Z) :
  dict_get k (dict_set k v d) def = v.
Proof.
  induction d as [|[k' v'] d IH]; cbn [dict_set dict_get].
  - now rewrite String.eqb_refl.
  - destruct (String.eqb k' k) eqn:E; cbn [dict_get].
    + now rewrite String.eqb_refl.
    + now rewrite E.
Qed.

Lemma dict_get_set_other (k k0 : string) (v : Z) (d : list (string * Z)) (def : Z) :
  k0 <> k -> dict_get k0 (dict_set k v d) def = dict_get k0 d def.
Proof.
  intros Hne. induction d as [|[k' v'] d IH]; cbn [dict_set dict_get].
  - apply String.eqb_neq in Hne. rewrite String.eqb_sym in Hne. now rewrite Hne.
  - destruct (String.eqb k' k) eqn:E; cbn [dict_get].
    + apply String.eqb_eq in E. subst k'.
      assert (F : String.eqb k k0 = false)
        by (apply String.eqb_neq; congruence).
      now rewrite F.
    + destruct (String.eqb k' k0); [reflexivity|exact IH].
Qed.

Lemma dict_set_keys (k : string) (v : Z) (d : list (string * Z)) :
  (In k (map fst d) /\ map fst (dict_set k v d) = map fst d)
  \/ (~ In k (map fst d) /\ map fst (dict_set k v d) = map fst d ++ [k]).
Proof.
  induction d as [|[k' v'] d IH]; cbn [dict_set map fst].
  - right. split; [intros []|reflexivity].
  - destruct (String.eqb_spec k' k) as [->|Hne]; cbn [map fst].
    + left. split; [now left|reflexivity].
    + destruct IH as [[Hin E]|[Hout E]].
      * left. split; [now right|]. now rewrite E.
      * right. split; [|now rewrite E]. intros [H|H]; [congruence|contradiction].
Qed.

Lemma dict_set_sum (k : string) (v : Z) (d : list (string * Z)) :
  fold_right Z.add 0 (map snd (dict_set k v d))
  = fold_right Z.add 0 (map snd d) - dict_get k d 0 + v.
Proof.
  induction d as [|[k' v'] d IH]; cbn [dict_set dict_get map snd fold_right].
  - lia.
  - destruct (String.eqb k' k); cbn [map snd fold_right]; [lia|].
    rewrite IH. lia.
Qed.

Lemma dict_set_In (k : string) (v : Z) (d : list (string * Z)) (c : string) (w : Z) :
  In (c, w) (dict_set k v d) -> (c = k /\ w = v) \/ In (c, w) d.
Proof.
  induction d as [|[k' v'] d IH]; cbn [dict_set].
  - intros [H|[]]. inversion H. now left.
  - destruct (String.eqb k' k).
    + intros [H|H]; [inversion H; now left|right; now right].
    + intros [H|H]; [right; now left|].
      destruct (IH H) as [?|?]; [now left|right; now right].
Qed.

Lemma in_category_app (c : string) (ps : list Partner) (p : Partner) :
  in_category c (ps ++ [p])
  = in_category c ps + (if String.eqb (category_or_general p) c then 1 else 0).
Proof.
  unfold in_category. rewrite filter_app, length_app. cbn [List.filter].
  destruct (String.eqb (category_or_general p) c); cbn [List.length]; lia.
Qed.

Lemma counted_step (ps : list Partner) (dist : list (string * Z)) (p : Partner) :
  counted ps dist -> counted (ps ++ [p]) (count_category dist p).
Proof.
  intros (Hnd & Hget & Hpos & Hsum). unfold count_category.
  set (c := category_or_general p).
  assert (Hnonneg : 0 <= dict_get c dist 0).
  { rewrite Hget. unfold in_category. lia. }
  split; [|split; [|split]].
  - destruct (dict_set_keys c (dict_get c dist 0 + 1) dist) as [[_ E]|[Hout E]];
      rewrite E; [exact Hnd|].
    apply NoDup_app; [exact Hnd | repeat constructor; intros [] | ].
    intros x Hx [<-|[]]. contradiction.
  - intros c0. rewrite in_category_app. fold c.
    destruct (String.eqb_spec c c0) as [<-|Hne].
    + rewrite dict_get_set_same, Hget. reflexivity.
    + rewrite dict_get_set_other by congruence. rewrite Hget. lia.
  - intros c0 v Hin. apply dict_set_In in Hin.
    destruct Hin as [[_ ->]|Hin]; [lia|]. now apply (Hpos c0).
  - rewrite dict_set_sum, Hsum, length_app. cbn [List.length]. lia.
Qed.

Lemma counted_fold (ps : list Partner) :
  forall seen dist,
    counted seen dist -> counted (seen ++ ps) (fold_left count_category ps dist).
Proof.
  induction ps as [|p ps IH]; intros seen dist H; cbn [fold_left].
  - now rewrite app_nil_r.
  - replace (seen ++ p :: ps) with ((seen ++ [p]) ++ ps)
      by (rewrite <- app_assoc; reflexivity).
    apply IH. now apply counted_step.
Qed.

(** X16: [get_category_distribution] maps each category to the number of
    partners in it, an empty category counting as 'general': the keys are
    distinct, a category with no partner is absent, and the counts add up
    to the number of partners. *)
Theorem category_distribution_counts (s : Store) :
  NoDup (map fst (get_category_distribution s))
  /\ (forall c, dict_get c (get_category_distribution s) 0
                = in_category c (get_all_partners s))
  /\ (forall c, In c (map fst (get_category_distribution s))
                <-> 0 < in_category c (get_all_partners s))
  /\ fold_right Z.add 0 (map snd (get_category_distribution s))
     = Z.of_nat (List.length (get_all_partners s)).
Proof.
  destruct (counted_fold (get_all_partners s) [] []) as (Hnd & Hget & Hpos & Hsum).
  { split; [constructor|]. split; [reflexivity|]. split; [intros ? ? []|reflexivity]. }
  cbn [app] in *. fold (get_category_distribution s) in *.
  split; [exact Hnd|]. split; [exact Hget|]. split; [|exact Hsum].
  intros c. rewrite <- Hget. split.
  - intros Hin. apply in_map_iff in Hin. destruct Hin as ([c' v] & <- & Hin).
    cbn [fst]. pose proof (Hpos c' v Hin) as Hv.
    clear -Hin Hv Hnd. induction (get_category_distribution s) as [|[k w] d IH];
      [destruct Hin|].
    cbn [dict_get]. cbn [map fst] in Hnd. inversion Hnd as [|? ? Hn Hnd']; subst.
    destruct Hin as [H|H].
    + inversion H; subst. now rewrite String.eqb_refl.
    + destruct (String.eqb_spec k c') as [->|_].
      * exfalso. apply Hn. apply (in_map fst) in H. exact H.
      * now apply IH.
  - intros Hv. clear -Hv. induction (get_category_distribution s) as [|[k w] d IH];
      cbn [dict_get] in Hv; [lia|].
    cbn [map fst]. destruct (String.eqb_spec k c) as [->|_]; [now left|].
    right. now apply IH.
Qed.

Lemma category_distribution_sample :
  get_category_distribution sample_store = [("general", 1); ("vip", 1)]%string.
Proof. reflexivity. Qed.

End StoreFacts.

(* ================================================================== *)
(** * The calculator: history display, percentages, conversions *)
(* ================================================================== *)

Module OpsFacts.
Import Py Calculator CalculatorOps CalculatorFacts.

Lemma py_slice_last {A : Type} (limit : Z) (l : list A) :
  1 <= limit -> py_slice_from (- limit) l = slice_last (Z.to_nat limit) l.
Proof.
  intros H. unfold py_slice_from, slice_last.
  destruct (Z.ltb_spec (- limit) 0) as [_|F]; [|lia]. f_equal. lia.
Qed.

Lemma listed_items (l : list Entry) : listed (map Item l) = l.
Proof.
  unfold listed. induction l as [|e l IH]; [reflexivity|].
  cbn [map flat_map app]. now rewrite IH.
Qed.

Lemma show_history_listed (limit : Z) (self : AdvancedCalculator) :
  history self <> [] ->
  announced (show_history limit self)
  = Some (Z.min limit (Z.of_nat (List.length (history self))))
  /\ listed (show_history limit self) = py_slice_from (- limit) (history self).
Proof.
  intros H. unfold show_history. destruct (history self) as [|e l] eqn:E;
    [congruence|].
  split; [reflexivity|]. unfold listed at 1.
  cbn [flat_map app]. apply listed_items.
Qed.

(** X17: on a non-empty history the count in the header of
    [show_history] is the number of entries listed under it exactly when
    [limit] is at least 1, and then the entries are the last [limit] ones;
    with [limit = 0] the header announces 0 and the whole history is
    listed. *)
Theorem show_history_count_matches (limit : Z) (self : AdvancedCalculator) :
  history self <> [] ->
  (announced (show_history limit self)
   = Some (Z.of_nat (List.length (listed (show_history limit self))))
   <-> 1 <= limit)
  /\ (1 <= limit ->
      listed (show_history limit self)
      = slice_last (Z.to_nat limit) (history self))
  /\ (limit = 0 ->
      announced (show_history limit self) = Some 0
      /\ listed (show_history limit self) = history self).
Proof.
  intros H. destruct (show_history_listed limit self H) as [Ha Hl].
  rewrite Ha, Hl.
  assert (Hlen : (0 < List.length (history self))%nat).
  { destruct (history self); [congruence|cbn; lia]. }
  split; [|split].
  - split.
    + intros E. injection E as E. revert E. unfold py_slice_from.
      destruct (Z.ltb_spec (- limit) 0) as [L|L]; [lia|].
      rewrite length_skipn. lia.
    + intros L. rewrite py_slice_last by exact L.
      rewrite slice_last_length. f_equal. lia.
  - intros L. now apply py_slice_last.
  - intros ->. split; [f_equal; lia|]. reflexivity.
Qed.

Lemma show_history_count_matches_witness :
  announced (show_history 0 sample_calculator) = Some 0
  /\ List.length (listed (show_history 0 sample_calculator)) = 3%nat
  /\ List.length (listed (show_history 2 sample_calculator)) = 2%nat.
Proof.
  assert (H : history sample_calculator <> []) by discriminate.
  destruct (show_history_count_matches 0 sample_calculator H) as (_ & _ & H0).
  destruct (show_history_count_matches 2 sample_calculator H) as (_ & H2 & _).
  destruct (H0 eq_refl) as [Ha Hl]. rewrite Ha, Hl, H2 by lia.
  repeat split.
Defined.

Lemma slice_last_slice_last {A : Type} (k m : nat) (l : list A) :
  slice_last k (slice_last m l) = slice_last (Nat.min k m) l.
Proof.
  unfold slice_last at 1. rewrite slice_last_length. unfold slice_last.
  rewrite skipn_skipn. f_equal. lia.
Qed.

Lemma slice_last_snoc {A : Type} (k : nat) (l : list A) (x : A) :
  (1 <= k)%nat -> slice_last k (l ++ [x]) = slice_last (k - 1) l ++ [x].
Proof.
  intros H. unfold slice_last. rewrite length_app. cbn [List.length].
  rewrite skipn_app.
  replace (List.length l + 1 - k)%nat with (List.length l - (k - 1))%nat by lia.
  replace (List.length l - (k - 1) - List.length l)%nat with O by lia.
  reflexivity.
Qed.

(** X18: [show_history] called after [add_to_history] with a [limit] of
    at least 1 lists the new entry last, preceded by the most recent
    entries of the old history, [min limit 100 - 1] of them at most. *)
Theorem show_history_after_add
    (limit : Z) (now : string) (writable : bool) (e r t : string)
    (self : AdvancedCalculator) :
  1 <= limit ->
  listed (show_history limit (add_to_history now writable e r t self))
  = slice_last (Nat.min (Z.to_nat limit) 100 - 1) (history self)
    ++ [ {| timestamp := now; expression := e; result := r; type := t |} ].
Proof.
  intros H.
  set (self' := add_to_history now writable e r t self).
  assert (Hh : history self'
               = slice_last 100
                   (history self ++
                    [ {| timestamp := now; expression := e; result := r;
                         type := t |} ]))
    by apply add_to_history_history.
  assert (Hne : history self' <> []).
  { rewrite Hh, slice_last_snoc by lia. intros E. apply app_eq_nil in E.
    destruct E as [_ E]. discriminate E. }
  destruct (show_history_listed limit self' Hne) as [_ Hl].
  rewrite Hl, py_slice_last, Hh, slice_last_slice_last by exact H.
  apply slice_last_snoc. lia.
Qed.

Lemma show_history_after_add_witness :
  map type
    (listed (show_history 2
               (add_to_history "2024-01-02 00:00:00" true "2.0 × 3.0" "6.0"
                  "basic" sample_calculator)))
  = ["basic"; "basic"]%string.
Proof.
  rewrite (show_history_after_add 2) by lia. reflexivity.
Defined.

(** ** Percentages *)

Section WithFormat.
Variable float_str : float -> string.
Variable float_fixed : nat -> float -> string.

(** X19: [calculate_percentage] never raises, whatever the floats and
    the operation name: the only division by an argument is guarded, and a
    [value] of zero of either sign takes the error return.  It returns no
    result exactly for an unknown operation and for "change" from zero. *)
Theorem calculate_percentage_never_raises
    (value percentage : float) (operation : string) :
  exists r e,
    calculate_percentage float_str float_fixed value percentage operation
    = Ok (r, e)
    /\ (r = None <->
        ~ In operation ["of"; "increase"; "decrease"; "change"]%string
        \/ (operation = "change"%string /\ (value =? 0)%float = true)).
Proof.
  unfold calculate_percentage.
  destruct (String.eqb_spec operation "of") as [->|N1].
  { eexists _, _. split; [reflexivity|]. split; [discriminate|].
    intros [H|[H _]]; [exfalso; apply H; cbn; tauto|discriminate H]. }
  destruct (String.eqb_spec operation "increase") as [->|N2].
  { eexists _, _. split; [reflexivity|]. split; [discriminate|].
    intros [H|[H _]]; [exfalso; apply H; cbn; tauto|discriminate H]. }
  destruct (String.eqb_spec operation "decrease") as [->|N3].
  { eexists _, _. split; [reflexivity|]. split; [discriminate|].
    intros [H|[H _]]; [exfalso; apply H; cbn; tauto|discriminate H]. }
  destruct (String.eqb_spec operation "change") as [->|N4].
  - unfold py_truediv. destruct (value =? 0)%float eqn:E; cbn [negb bind].
    + eexists _, _. split; [reflexivity|]. split; [|reflexivity].
      intros _. right. now split.
    + eexists _, _. split; [reflexivity|]. split; [discriminate|].
      intros [H|[_ H]]; [exfalso; apply H; cbn; tauto|discriminate H].
  - eexists _, _. split; [reflexivity|]. split; [|reflexivity].
    intros _. left. cbn. intros [H|[H|[H|[H|[]]]]]; congruence.
Qed.

(** ** Conversions *)

Lemma has_key_getitem {V : Type} (key : string) (d : list (string * V)) :
  has_key key d = true -> exists v, getitem key d = Return v /\ In (key, v) d.
Proof.
  unfold has_key, getitem. induction d as [|[k v] d IH]; cbn [existsb List.find fst].
  - discriminate.
  - destruct (String.eqb_spec k key) as [->|_]; cbn [orb snd].
    + intros _. exists v. split; [reflexivity|now left].
    + intros H. destruct (IH H) as (w & Hw & Hin). exists w.
      split; [exact Hw|now right].
Qed.

Lemma numeric_factor (units : Units) (key : string) (v : Value) :
  numeric units = true -> In (key, v) units ->
  exists f, v = Num f /\ (f =? 0)%float = false.
Proof.
  unfold numeric. rewrite forallb_forall. intros H Hin.
  specialize (H _ Hin). cbn [snd] in H. destruct v as [f|s]; [|discriminate H].
  exists f. split; [reflexivity|]. now apply negb_true_iff.
Qed.

Lemma conversions_shape (category : string) (units : Units) :
  In (category, units) conversions ->
  getitem category conversions = Return units
  /\ (units = temperature_units \/ numeric units = true).
Proof.
  intros H. cbn in H.
  repeat (destruct H as [H|H]; [inversion H; subst; clear H|]);
    try (destruct H);
    (split; [reflexivity|]); ((left; reflexivity) || (right; reflexivity)).
Qed.

Lemma temperature_keys (key : string) :
  has_key key temperature_units = true ->
  key = "celsius"%string \/ key = "fahrenheit"%string \/ key = "kelvin"%string.
Proof.
  unfold has_key, temperature_units. cbn [existsb fst].
  destruct (String.eqb_spec "celsius" key) as [<-|_]; [tauto|].
  destruct (String.eqb_spec "fahrenheit" key) as [<-|_]; [tauto|].
  destruct (String.eqb_spec "kelvin" key) as [<-|_]; [tauto|].
  discriminate.
Qed.

(** X20: [unit_conversion] never raises: the temperature_units letters are
    never multiplied, no factor of the table is zero, and every lookup
    hits.  It returns a result exactly when both units are keys of one
    category of the table. *)
Theorem unit_conversion_supported (value : float) (from_unit to_unit : string) :
  exists r e,
    unit_conversion float_str float_fixed value from_unit to_unit
    = Return (r, e)
    /\ (r <> None <->
        exists category units,
          In (category, units) conversions
          /\ has_key from_unit units = true /\ has_key to_unit units = true).
Proof.
  unfold unit_conversion.
  change (getitem "temperature" conversions) with (Return temperature_units).
  cbn [and_then].
  destruct (has_key from_unit temperature_units && has_key to_unit temperature_units) eqn:E.
  - apply andb_true_iff in E. destruct E as [Ef Et].
    assert (Hin : exists category units,
               In (category, units) conversions
               /\ has_key from_unit units = true
               /\ has_key to_unit units = true).
    { exists "temperature"%string, temperature_units. split; [|now split].
      cbn. tauto. }
    apply temperature_keys in Ef, Et.
    destruct Ef as [ -> | [ -> | -> ] ]; destruct Et as [ -> | [ -> | -> ] ];
      (eexists _, _; split; [reflexivity|]; split; [intros _; exact Hin|discriminate]).
  - match goal with
    | |- context [List.find ?f ?l] =>
        destruct (List.find f l) as [[category units0]|] eqn:F
    end.
    + apply find_some in F. destruct F as [Hin Hk]. cbn [snd] in Hk.
      apply andb_true_iff in Hk. destruct Hk as [Hf Ht].
      destruct (conversions_shape _ _ Hin) as [Hget [->|Hnum]].
      { rewrite Hf, Ht in E. discriminate E. }
      rewrite Hget. cbn [and_then].
      destruct (has_key_getitem _ _ Hf) as (vf & Gf & If).
      destruct (has_key_getitem _ _ Ht) as (vt & Gt & It).
      destruct (numeric_factor _ _ _ Hnum If) as (ff & -> & _).
      destruct (numeric_factor _ _ _ Hnum It) as (ft & -> & Nz).
      rewrite Gf. cbn [and_then mul_value]. rewrite Gt.
      cbn [and_then div_value]. unfold truediv, py_truediv. rewrite Nz.
      cbn [and_then]. eexists _, _. split; [reflexivity|].
      split; [|discriminate]. intros _. exists category, units0. now split.
    + eexists _, _. split; [reflexivity|]. split; [congruence|].
      intros (category & units & Hin & Hf & Ht).
      pose proof (find_none _ _ F _ Hin) as Hn. cbn [snd] in Hn.
      rewrite Hf, Ht in Hn. discriminate Hn.
Qed.

(** X21: none of the unit names that [unit_conversion_menu] displays is
    a key of the conversion table: for every pair of displayed names of a
    menu category, [unit_conversion] returns no result and the
    'unsupported conversion' message, for any value. *)
Theorem menu_units_are_rejected
    (value : float) (choice category : string) (units : list string)
    (from_unit to_unit : string) :
  In (choice, (category, units)) menu_categories ->
  In from_unit units -> In to_unit units ->
  unit_conversion float_str float_fixed value from_unit to_unit
  = Return (None,
            "Неподдерживаемое преобразование: " ++ from_unit ++ " → "
            ++ to_unit)%string.
Proof.
  intros H Hf Ht. cbn in H.
  repeat (destruct H as [H|H]; [inversion H; subst; clear H|]);
    try (destruct H);
    cbn in Hf, Ht;
    repeat (destruct Hf as [<-|Hf]; [|]); try (destruct Hf);
    repeat (destruct Ht as [<-|Ht]; [|]); try (destruct Ht);
    reflexivity.
Qed.

End WithFormat.

Lemma menu_units_are_rejected_witness :
  unit_conversion (fun _ => "5.0"%string) (fun _ _ => "0.005000"%string)
    5%float "м" "км"
  = Return (None, "Неподдерживаемое преобразование: м → км"%string).
Proof.
  apply (menu_units_are_rejected _ _ 5%float "1" "length"
           ["м"; "км"; "см"; "мм"; "мили"; "ярды"; "футы"; "дюймы"]%string);
    cbn; tauto.
Defined.

End OpsFacts.

(* ================================================================== *)
(** * The geodata tool: cluster colours and coordinate ranges *)
(* ================================================================== *)

Module GeoMapFacts.
Import GeoMap.

Lemma py_index_in_range {A : Type} (l : list A) (i : Z) :
  0 <= i < Z.of_nat (List.length l) -> py_index l i = nth_error l (Z.to_nat i).
Proof.
  intros H. unfold py_index.
  destruct (Z.ltb_spec i 0) as [L|_]; [lia|].
  destruct (Z.leb_spec 0 i) as [_|L]; [|lia].
  destruct (Z.ltb_spec i (Z.of_nat (List.length l))) as [_|L]; [|lia].
  reflexivity.
Qed.

Lemma colors_NoDup : NoDup colors.
Proof.
  unfold colors.
  repeat (constructor; [cbn; intros H; repeat (destruct H as [H|H]; [discriminate H|]); exact H|]).
  constructor.
Qed.

(** X22: [_get_cluster_color] never fails with an index error, for any
    integer, the noise label [-1] included: it returns a colour of the
    list, and two cluster ids get the same colour exactly when they are
    congruent modulo 19. *)
Theorem get_cluster_color_total (cluster_id other_id : Z) :
  (exists c, _get_cluster_color cluster_id = Some c /\ In c colors)
  /\ (_get_cluster_color cluster_id = _get_cluster_color other_id
      <-> cluster_id mod 19 = other_id mod 19).
Proof.
  unfold _get_cluster_color.
  change (Z.of_nat (List.length colors)) with 19.
  pose proof (Z.mod_pos_bound cluster_id 19 ltac:(lia)) as B1.
  pose proof (Z.mod_pos_bound other_id 19 ltac:(lia)) as B2.
  rewrite !py_index_in_range by (change (Z.of_nat (List.length colors)) with 19; lia).
  split.
  - destruct (nth_error colors (Z.to_nat (cluster_id mod 19))) as [c|] eqn:E.
    + exists c. split; [reflexivity|]. eapply nth_error_In; exact E.
    + apply nth_error_None in E. change (List.length colors) with 19%nat in E. lia.
  - split.
    + intros E.
      assert (Hn : Z.to_nat (cluster_id mod 19) = Z.to_nat (other_id mod 19)).
      { apply (proj1 (NoDup_nth_error colors) colors_NoDup); [|exact E].
        change (List.length colors) with 19%nat. lia. }
      lia.
    + intros ->. reflexivity.
Qed.

Lemma SFcompare_refl_finite (s : bool) (m : positive) (e : Z) :
  SFcompare (S754_finite s m e) (S754_finite s m e) = Some Eq.
Proof.
  cbn. destruct s; rewrite Z.compare_refl, Pos.compare_cont_refl; reflexivity.
Qed.

Lemma in_range_finite (lo hi x : float) :
  is_nan lo = false -> is_infinity lo = false ->
  is_nan hi = false -> is_infinity hi = false ->
  ((lo <=? x) && (x <=? hi))%float = true ->
  is_nan x = false /\ is_infinity x = false.
Proof.
  unfold is_nan, is_infinity.
  rewrite !leb_spec, !eqb_spec, !abs_spec.
  change (Prim2SF infinity) with (S754_infinity false).
  destruct (Prim2SF x) as [sx|sx| |sx mx ex].
  - intros _ _ _ _ _. split; reflexivity.
  - intros L1 L2 H1 H2 H. exfalso.
    destruct (Prim2SF lo) as [[]|[]| |[] ml el],
             (Prim2SF hi) as [[]|[]| |[] mh eh], sx;
      cbn in L1, L2, H1, H2, H; congruence.
  - intros L1 L2 H1 H2 H. exfalso.
    destruct (Prim2SF lo) as [[]|[]| |[] ml el]; cbn in H; congruence.
  - intros _ _ _ _ _. split.
    + unfold SFeqb. rewrite SFcompare_refl_finite. reflexivity.
    + destruct sx; reflexivity.
Qed.

(** X23: coordinates that [validate_coordinates] accepts are numbers:
    neither NaN nor an infinity passes the chained comparisons. *)
Theorem validate_coordinates_finite (lat lon : float) :
  validate_coordinates lat lon = true ->
  is_nan lat = false /\ is_infinity lat = false
  /\ is_nan lon = false /\ is_infinity lon = false.
Proof.
  unfold validate_coordinates. intros H. apply andb_true_iff in H.
  destruct H as [Hlat Hlon].
  destruct (in_range_finite (-90) 90 lat) as [? ?]; try reflexivity; [exact Hlat|].
  destruct (in_range_finite (-180) 180 lon) as [? ?]; try reflexivity; [exact Hlon|].
  tauto.
Qed.

Lemma validate_coordinates_finite_witness :
  is_nan 55.75%float = false /\ is_infinity 37.62%float = false.
Proof.
  destruct (validate_coordinates_finite 55.75 37.62) as (H1 & _ & _ & H4);
    [reflexivity|]. now split.
Defined.

End GeoMapFacts.
